(** * appwha: the swipe-review loop, the photo store and the export gate

    A shallow embedding of the TypeScript sources of the application:

    - [lib/modules/ui/useSwipeLogic.ts] and [components/molecules/SwipeCard.tsx]
      (module [Swipe]): the drag-release decision and the animations it starts;
    - [lib/modules/gallery/useSaveToGallery.ts] (module [SaveToGallery]):
      the export of one photo to the device library;
    - the [Set] of listeners and its [forEach] (module [Listeners]);
    - [lib/store/galleryStore.ts] (module [GalleryStore]): the storage
      provider, the global photo array and its three mutations;
    - [app/gallery.tsx] (module [GalleryScreen]): the review handlers;
    - [app/_layout.tsx] and [lib/hooks/useInitializeStore.ts]
      (module [Startup]): what happens when the application opens;
    - module [Host]: a storage module, a JSON codec and a media library to
      run the model on;
    - [components/molecules/SwipeCard.tsx] again (module [Card]): where the
      card is after the animations;
    - [lib/modules/camera/useCameraLogic.ts] (module [Camera]),
      [components/molecules/PermissionBlocker.tsx] (module
      [PermissionBlocker]) and [app/camera.tsx] (module [CameraScreen]):
      taking a picture and saving it;
    - modules [StorageLaw], [Review] and [Samples]: a law a storage module
      may meet, gestures in a row, and more inputs.

    Conventions.  A JavaScript call either completes normally or throws; an
    [async] function that rejects is a call that throws at its [await].
    Both are a [result].  Finite JavaScript numbers are rationals and their
    comparisons are exact, so gesture measurements are in [Q].  Function
    identity (what a [Set] of closures compares) is a natural number. *)

From Stdlib Require Import Ascii QArith.
From stdpp Require Import base option list strings gmap pretty.

Local Open Scope string_scope.
Local Open Scope list_scope.

(** ** Completions *)

Inductive result (A : Type) : Type :=
| Ok (a : A)
| Throw.
Arguments Ok {A} a.
Arguments Throw {A}.

(** Code that works on a state [S] and may throw.  The state reached is
    kept whatever the completion: what was done before a throw stays done. *)
Definition Eff (S A : Type) : Type := S -> result A * S.

#[export] Instance Eff_ret {S : Type} : MRet (Eff S) := fun _ a s => (Ok a, s).

#[export] Instance Eff_bind {S : Type} : MBind (Eff S) := fun _ _ k m s =>
  match m s with
  | (Ok a, s') => k a s'
  | (Throw, s') => (Throw, s')
  end.

(** [try { body } catch (error) { handler }] *)
Definition try_catch {S A : Type} (body handler : Eff S A) : Eff S A := fun s =>
  match body s with
  | (Ok a, s') => (Ok a, s')
  | (Throw, s') => handler s'
  end.

(** ** Rational comparisons as the booleans [>] and [<] of the source *)

Definition Qgtb (a b : Q) : bool := negb (Qle_bool a b).
Definition Qltb (a b : Q) : bool := negb (Qle_bool b a).

(** ** The swipe engine: useSwipeLogic.ts and SwipeCard.tsx *)

Module Swipe.

Inductive Axis : Type := TranslateX | TranslateY.

(** The two props of [SwipeCard] that an animation may call when it ends. *)
Inductive Terminal : Type := OnSwipeLeft | OnSwipeRight.

(** What the engine asks of the animation library, in program order.
    [Animated.timing(v, cfg).start(k)] runs the animation and calls [k]
    once when it ends: it is a [Timing] followed by the effects of [k]. *)
Inductive Effect : Type :=
| Spring (a : Axis) (toValue : Q)
| Timing (a : Axis) (toValue : Q) (duration : N)
| SetValue (a : Axis) (v : Q)
| Invoke (callback : Terminal).

Record Gesture : Type := { dx : Q; dy : Q; vx : Q; vy : Q }.

Definition SWIPE_THRESHOLD : Q := 100.
Definition ROTATION_ANGLE : Q := 30.

Section Engine.
(** [Dimensions.get('window').width] *)
Variable SCREEN_WIDTH : Q.

Definition resetPosition : list Effect :=
  [Spring TranslateX 0; Spring TranslateY 0].

Definition dismissRight (callback : Terminal) : list Effect :=
  [Timing TranslateX (SCREEN_WIDTH * (3 # 2)) 300;
   Invoke callback; SetValue TranslateX 0; SetValue TranslateY 0].

Definition dismissLeft (callback : Terminal) : list Effect :=
  [Timing TranslateX (- SCREEN_WIDTH * (3 # 2)) 300;
   Invoke callback; SetValue TranslateX 0; SetValue TranslateY 0].

Definition calculateRotation (translationX : Q) : Q :=
  (translationX / SCREEN_WIDTH) * ROTATION_ANGLE.

Definition onPanResponderMove (gesture : Gesture) : list Effect :=
  [SetValue TranslateX (dx gesture); SetValue TranslateY (dy gesture)].

Definition onPanResponderRelease (gesture : Gesture) : list Effect :=
  if Qgtb (vx gesture) (1 # 2) || Qgtb (dx gesture) SWIPE_THRESHOLD then
    dismissRight OnSwipeRight
  else if Qltb (vx gesture) (- (1 # 2)) || Qltb (dx gesture) (- SWIPE_THRESHOLD) then
    dismissLeft OnSwipeLeft
  else
    resetPosition.
End Engine.

(** The terminal callbacks a run of effects fires, in order. *)
Definition fired (es : list Effect) : list Terminal :=
  omap (fun e => match e with Invoke t => Some t | _ => None end) es.

(** A release that is purely horizontal. *)
Definition release (dx vx : Q) : Gesture :=
  {| dx := dx; dy := 0; vx := vx; vy := 0 |}.

End Swipe.

(** ** The export gate: useSaveToGallery.ts *)

Module SaveToGallery.

Inductive PermissionStatus : Type := Granted | Denied | Undetermined.

Record PermissionResponse : Type :=
  { status : PermissionStatus; canAskAgain : bool }.

(** [status === 'granted'] *)
Definition isGranted (s : PermissionStatus) : bool :=
  match s with Granted => true | _ => false end.

(** [expo-media-library], as far as the hook uses it.  Each promise either
    resolves or rejects; the argument of the first two is [writeOnly]. *)
Record MediaLibrary : Type :=
  { getPermissionsAsync : bool -> result PermissionResponse;
    requestPermissionsAsync : bool -> result PermissionResponse;
    saveToLibraryAsync : string -> result unit }.

(** The calls made to the library, oldest first. *)
Inductive Call : Type :=
| GetPermissions (writeOnly : bool)
| RequestPermissions (writeOnly : bool)
| SaveToLibrary (uri : string).

(** Does the library reject this call? *)
Definition rejects (ml : MediaLibrary) (c : Call) : bool :=
  match c with
  | GetPermissions w => if getPermissionsAsync ml w is Throw then true else false
  | RequestPermissions w => if requestPermissionsAsync ml w is Throw then true else false
  | SaveToLibrary u => if saveToLibraryAsync ml u is Throw then true else false
  end.

(** Code that calls the library: the state is the log of calls. *)
Definition M : Type -> Type := Eff (list Call).

(** [await] of a library call with the given completion. *)
Definition await {A : Type} (c : Call) (completion : result A) : M A :=
  fun t => (completion, t ++ [c]).

Section Hook.
Variable MediaLibrary_ : MediaLibrary.

Definition requestPermission : M bool :=
  try_catch
    (r ← await (RequestPermissions true)
               (requestPermissionsAsync MediaLibrary_ true);
     mret (isGranted (status r)))
    (mret false).

Definition saveToGallery (imageUri : string) : M bool :=
  let copy : M bool :=
    _ ← await (SaveToLibrary imageUri) (saveToLibraryAsync MediaLibrary_ imageUri);
    mret true in
  try_catch
    (p ← await (GetPermissions true) (getPermissionsAsync MediaLibrary_ true);
     if negb (isGranted (status p)) then
       if canAskAgain p then
         permitted ← requestPermission;
         if negb permitted then mret false else copy
       else mret false
     else copy)
    (mret false).
End Hook.

(** The photos whose copy to the library a log attempts, oldest first. *)
Definition copies (t : list Call) : list string :=
  omap (fun c => match c with SaveToLibrary u => Some u | _ => None end) t.

End SaveToGallery.

(** ** The Set of listeners and its forEach *)

Module Listeners.

(** A listener is a closure; the Set compares closures by identity. *)
Abbreviation Listener := nat.

(** The entries of the Set in insertion order.  A deleted entry is emptied
    in place and the list never shrinks, so that an iteration in progress
    keeps its position. *)
Abbreviation SetData := (list (option Listener)).

Definition empty : SetData := [].

Definition has (l : Listener) (s : SetData) : bool :=
  bool_decide (Some l ∈ s).

(** [listeners.add(l)] *)
Definition add (l : Listener) (s : SetData) : SetData :=
  if has l s then s else s ++ [Some l].

(** [listeners.delete(l)] *)
Definition delete (l : Listener) (s : SetData) : SetData :=
  (fun e => if decide (e = Some l) then None else e) <$> s.

(** The members, in insertion order. *)
Definition values (s : SetData) : list Listener := omap id s.


Section ForEach.
Context {S : Type}.
(** Where the Set lives in the state, and what calling a listener does. *)
Variable data : S -> SetData.
Variable call : Listener -> Eff S unit.

(** [listeners.forEach(callback)] from position [i]: the bound of the loop
    is read again after every callback, so entries appended meanwhile are
    visited and entries emptied meanwhile are skipped.  A callback that
    throws ends the loop, and the loop throws.  A callback may append for
    ever: the loop is cut after [fuel] entries. *)
Fixpoint forEach_from (fuel i : nat) (s : S) {struct fuel} : option (result unit * S) :=
  match data s !! i with
  | None => Some (Ok tt, s)
  | Some e =>
      match fuel with
      | O => None
      | Datatypes.S fuel' =>
          match e with
          | Some l =>
              match call l s with
              | (Ok _, s') => forEach_from fuel' (Datatypes.S i) s'
              | (Throw, s') => Some (Throw, s')
              end
          | None => forEach_from fuel' (Datatypes.S i) s
          end
      end
  end.

Definition forEach (fuel : nat) (s : S) : option (result unit * S) :=
  forEach_from fuel 0 s.
End ForEach.

(** A registry on its own: the Set and the log of the listeners called.
    This is the module state of useInitializeStore.ts, whose [addListener]
    accepts any function; what a listener does when it runs is its [body]:
    it may subscribe and unsubscribe listeners, and it may throw. *)
Inductive Action : Type :=
| Subscribe (l : Listener)
| Unsubscribe (l : Listener)
| Raise.

Record Registry : Type := { listeners : SetData; called : list Listener }.

(** The statements of a body, up to the first that throws. *)
Fixpoint perform (s : SetData) (actions : list Action) : result unit * SetData :=
  match actions with
  | [] => (Ok tt, s)
  | Subscribe l :: rest => perform (add l s) rest
  | Unsubscribe l :: rest => perform (delete l s) rest
  | Raise :: _ => (Throw, s)
  end.

Section Notify.
Variable body : Listener -> list Action.

Definition run (l : Listener) : Eff Registry unit :=
  fun r =>
    let '(completion, s) := perform (listeners r) (body l) in
    (completion, {| listeners := s; called := called r ++ [l] |}).

(** [listeners.forEach((listener) => listener())] *)
Definition notifyListeners (fuel : nat) (r : Registry) : option (result unit * Registry) :=
  forEach listeners run fuel r.

End Notify.

End Listeners.

(** ** The photo store: galleryStore.ts *)

Module GalleryStore.
Import Listeners.

(** What [JSON.parse] may return. *)
#[local] Set Warnings "-register-all".
Inductive json : Type :=
| JNull
| JBool (b : bool)
| JNum (n : Z)
| JStr (s : string)
| JArr (items : list json)
| JObj (fields : list (string * json)).

Record Photo : Type := { id : string; uri : string; timestamp : N }.

Definition json_of_photo (p : Photo) : json :=
  JObj [("id", JStr (id p)); ("uri", JStr (uri p));
        ("timestamp", JNum (Z.of_N (timestamp p)))].

Definition json_of_photos (photos : list Photo) : json :=
  JArr (json_of_photo <$> photos).

(** The device: what the storage holds under each key, and the console. *)
Record Device : Type := { disk : gmap string string; console : list string }.

(** A storage module, [{ setItem, getItem }]. *)
Record Provider : Type :=
  { setItem : string -> string -> Eff Device unit;
    getItem : string -> Eff Device (option string) }.

(** The object assigned in the [catch] branch of the [require]. *)
Definition mockStorage : Provider :=
  {| setItem := fun key value d =>
       (Ok tt, {| disk := disk d;
                  console := console d ++ ["Mock setItem: " +:+ key] |});
     getItem := fun key => mret None |}.

(** What the host provides: the JSON codec and the completion of
    [require('@react-native-async-storage/async-storage').default]. *)
Class Platform : Type :=
  { JSON_stringify : json -> string;
    JSON_parse : string -> result json;
    require_async_storage : result Provider }.

(** [try { AsyncStorage = require(...).default } catch { AsyncStorage = mock }] *)
Definition AsyncStorage `{Platform} : Provider :=
  match require_async_storage with
  | Ok module => module
  | Throw => mockStorage
  end.

Definition STORAGE_KEY : string := "@appwha_gallery".

(** A value of type [result] read as a computation that leaves the state. *)
Definition lift {S A : Type} (r : result A) : Eff S A := fun s => (r, s).

(** The module state of galleryStore.ts, the [photos] state of every
    component that called [useGalleryStore] (keyed by its listener), and
    the device. *)
Record World : Type :=
  { globalPhotos : list Photo;
    listeners : SetData;
    snapshots : gmap Listener (list Photo);
    device : Device }.

(** The state when the module has just been loaded. *)
Definition start (d : Device) : World :=
  {| globalPhotos := []; listeners := Listeners.empty; snapshots := ∅; device := d |}.

Definition setGlobalPhotos (photos : list Photo) (w : World) : World :=
  {| globalPhotos := photos; listeners := listeners w;
     snapshots := snapshots w; device := device w |}.

(** [setPhotos(photos)] of the component that owns listener [l]. *)
Definition setPhotos (l : Listener) (photos : list Photo) (w : World) : World :=
  {| globalPhotos := globalPhotos w; listeners := listeners w;
     snapshots := <[l := photos]> (snapshots w); device := device w |}.

(** [const listener = () => { setPhotos([...globalPhotos]) }] *)
Definition listener (l : Listener) (w : World) : World :=
  setPhotos l (globalPhotos w) w.

(** [listeners.forEach((listener) => listener())].  The listeners of this
    module only set component state, so the Set is the same throughout and
    the loop calls its members in insertion order
    (lemma [notifyListeners_forEach]). *)
Definition notifyListeners (w : World) : World :=
  foldl (fun w l => listener l w) w (values (listeners w)).

(** The strings without a dash: the decimal numerals are among them. *)
Fixpoint dash_free (s : string) : Prop :=
  match s with
  | EmptyString => True
  | String c r => c <> "-"%char /\ dash_free r
  end.

Section Store.
Context `{host : Platform}.

Definition savePhotosToStorage (photos : list Photo) : Eff Device unit :=
  try_catch
    (setItem AsyncStorage STORAGE_KEY (JSON_stringify (json_of_photos photos)))
    (mret tt).

Definition loadPhotosFromStorage : Eff Device json :=
  try_catch
    (stored ← getItem AsyncStorage STORAGE_KEY;
     match stored with
     | Some text =>
         if bool_decide (text ≠ EmptyString) then lift (JSON_parse text)
         else mret (JArr [])
     | None => mret (JArr [])
     end)
    (mret (JArr [])).

(** A call of [savePhotosToStorage] that is not awaited: the write is done,
    its completion is dropped. *)
Definition persist (w : World) : World :=
  {| globalPhotos := globalPhotos w; listeners := listeners w;
     snapshots := snapshots w;
     device := (savePhotosToStorage (globalPhotos w) (device w)).2 |}.

(** The three values [addPhoto] reads from the host: [Date.now()] for the
    id, [Math.random()] as the template literal prints it, and [Date.now()]
    for the timestamp. *)
Record Reading : Type := { now_id : N; random : string; now_timestamp : N }.

Definition newPhoto (r : Reading) (uri : string) : Photo :=
  {| id := "photo-" +:+ pretty (now_id r) +:+ "-" +:+ random r;
     uri := uri;
     timestamp := now_timestamp r |}.

(** The callback has no [return]: the call evaluates to [undefined],
    here [None]. *)
Definition addPhoto (r : Reading) (uri : string) (w : World) : option Photo * World :=
  let w := setGlobalPhotos (newPhoto r uri :: globalPhotos w) w in
  let w := persist w in
  (None, notifyListeners w).

Definition removePhoto (id_ : string) (w : World) : World :=
  let w := setGlobalPhotos (filter (fun p => id p ≠ id_) (globalPhotos w)) w in
  let w := persist w in
  notifyListeners w.

Definition clearPhotos (w : World) : World :=
  let w := setGlobalPhotos [] w in
  let w := persist w in
  notifyListeners w.

(** A component calls [useGalleryStore] for the first time: [useState]
    starts from [globalPhotos] and the effect adds the listener. *)
Definition mount (l : Listener) (w : World) : World :=
  {| globalPhotos := globalPhotos w; listeners := add l (listeners w);
     snapshots := <[l := globalPhotos w]> (snapshots w); device := device w |}.

(** The cleanup of the effect. *)
Definition unmount (l : Listener) (w : World) : World :=
  {| globalPhotos := globalPhotos w; listeners := Listeners.delete l (listeners w);
     snapshots := base.delete l (snapshots w); device := device w |}.

(** The [photos] a component reads at its next render. *)
Definition photosOf (l : Listener) (w : World) : list Photo :=
  default [] (snapshots w !! l).

(** A run of [addPhoto] calls, first call first. *)
Definition addAll (calls : list (Reading * string)) (w : World) : World :=
  foldl (fun w c => (addPhoto c.1 c.2 w).2) w calls.
End Store.

End GalleryStore.

(** ** The review screen: gallery.tsx *)

Module GalleryScreen.
Import Listeners GalleryStore SaveToGallery.

Inductive ViewMode : Type := SwipeMode | GridMode.

(** The two [useState] cells of the screen besides [photos]. *)
Record State : Type := { viewMode : ViewMode; currentIndex : nat }.

(** [useState('swipe')] and [useState(0)] *)
Definition initialState : State := {| viewMode := SwipeMode; currentIndex := 0 |}.

(** The store, the screen and the log of calls to the media library. *)
Record Session : Type := { world : World; state : State; calls : list Call }.

(** What the screen shows. *)
Inductive View : Type :=
| EmptyState
| Card (p : Photo)
| Grid (photos : list Photo).

(** The handlers are closures of one render: [photos] and [currentIndex]
    are the values of that render, also after the store has changed. *)
Definition moveToNext (photos : list Photo) (st : State) : State :=
  if (Z.of_nat (currentIndex st) <? Z.of_nat (length photos) - 1)%Z then
    {| viewMode := viewMode st; currentIndex := currentIndex st + 1 |}
  else
    {| viewMode := GridMode; currentIndex := 0 |}.

Section Screen.
Context `{host : Platform}.
(** The listener of this screen's [useGalleryStore()]. *)
Variable self : Listener.
Variable MediaLibrary_ : MediaLibrary.

Definition handleSwipeRight (photos : list Photo) (st : State) : M State :=
  _ ← match photos !! currentIndex st with
      | Some currentPhoto => _ ← saveToGallery MediaLibrary_ (uri currentPhoto); mret tt
      | None => mret tt
      end;
  mret (moveToNext photos st).

Definition handleSwipeLeft (photos : list Photo) (st : State) (w : World) : World * State :=
  let w :=
    match photos !! currentIndex st with
    | Some currentPhoto => removePhoto (id currentPhoto) w
    | None => w
    end in
  if (length photos =? 1)%nat then (w, {| viewMode := GridMode; currentIndex := 0 |})
  else (w, moveToNext photos st).

(** [toggleViewMode] and [handlePhotoPress] *)
Definition toggleViewMode (st : State) : State :=
  {| viewMode := match viewMode st with SwipeMode => GridMode | GridMode => SwipeMode end;
     currentIndex := currentIndex st |}.

Definition findIndex (photoId : string) (photos : list Photo) : option nat :=
  fst <$> list_find (fun p => id p = photoId) photos.

Definition handlePhotoPress (photos : list Photo) (photoId : string) (st : State) : State :=
  match findIndex photoId photos with
  | Some index => {| viewMode := SwipeMode; currentIndex := index |}
  | None => st
  end.

(** The render: the empty state, the card of the current photo, or the grid. *)
Definition render (s : Session) : View :=
  let photos := photosOf self (world s) in
  if (length photos =? 0)%nat then EmptyState
  else
    match viewMode (state s), photos !! currentIndex (state s) with
    | SwipeMode, Some currentPhoto => Card currentPhoto
    | _, _ => Grid photos
    end.

(** One terminal callback of the card, run to its end with the values of
    the current render. *)
Definition onSwipeRight (s : Session) : Session :=
  match handleSwipeRight (photosOf self (world s)) (state s) (calls s) with
  | (Ok st, log) => {| world := world s; state := st; calls := log |}
  | (Throw, log) => {| world := world s; state := state s; calls := log |}
  end.

Definition onSwipeLeft (s : Session) : Session :=
  let '(w, st) := handleSwipeLeft (photosOf self (world s)) (state s) (world s) in
  {| world := w; state := st; calls := calls s |}.

Definition onEffect (s : Session) (e : Swipe.Effect) : Session :=
  match e with
  | Swipe.Invoke Swipe.OnSwipeRight => onSwipeRight s
  | Swipe.Invoke Swipe.OnSwipeLeft => onSwipeLeft s
  | _ => s
  end.

(** One gesture on the card, from the release to the end of its animation. *)
Definition gesture (SCREEN_WIDTH : Q) (g : Swipe.Gesture) (s : Session) : Session :=
  foldl onEffect s (Swipe.onPanResponderRelease SCREEN_WIDTH g).

(** The screen is opened on a store. *)
Definition open (w : World) : Session :=
  {| world := mount self w; state := initialState; calls := [] |}.
End Screen.

End GalleryScreen.

(** ** Opening the application: _layout.tsx and useInitializeStore.ts *)

Module Startup.
Import Listeners GalleryStore.

Section Startup.
Context `{host : Platform}.

(** [RootLayout]: [try { await loadPhotosFromStorage() } catch (error) { }].
    The value read is not bound to anything. *)
Definition initializeApp (w : World) : World :=
  let '(completion, d) := loadPhotosFromStorage (device w) in
  let w := {| globalPhotos := globalPhotos w; listeners := listeners w;
              snapshots := snapshots w; device := d |} in
  match completion with
  | Ok _ => w
  | Throw => w
  end.

(** useInitializeStore.ts has module variables of its own, with the names
    of those of galleryStore.ts: its [globalPhotos] and its [listeners]. *)
Record HookState : Type := { hookPhotos : json; hookListeners : Registry }.

Definition hookStart : HookState :=
  {| hookPhotos := JArr [];
     hookListeners := {| Listeners.listeners := Listeners.empty; called := [] |} |}.

(** [initialize] of the hook; [None] when the listeners never stop
    subscribing listeners.  [globalPhotos] is assigned before the
    listeners are called, and what a listener throws is caught. *)
Definition initialize (body : Listener -> list Action) (fuel : nat)
    (h : HookState) (w : World) : option (HookState * World) :=
  let '(completion, d) := loadPhotosFromStorage (device w) in
  let w := {| globalPhotos := globalPhotos w; listeners := listeners w;
              snapshots := snapshots w; device := d |} in
  match completion with
  | Ok storedPhotos =>
      '(_, r) ← Listeners.notifyListeners body fuel (hookListeners h);
      Some ({| hookPhotos := storedPhotos; hookListeners := r |}, w)
  | Throw => Some (h, w)
  end.

Definition setGlobalPhotos (photos : json) (h : HookState) : HookState :=
  {| hookPhotos := photos; hookListeners := hookListeners h |}.

Definition getGlobalPhotos (h : HookState) : json := hookPhotos h.

Definition addListener (l : Listener) (h : HookState) : HookState :=
  {| hookPhotos := hookPhotos h;
     hookListeners := {| Listeners.listeners := add l (Listeners.listeners (hookListeners h));
                         called := called (hookListeners h) |} |}.

(** The function [addListener] returns. *)
Definition removeListener (l : Listener) (h : HookState) : HookState :=
  {| hookPhotos := hookPhotos h;
     hookListeners :=
       {| Listeners.listeners := Listeners.delete l (Listeners.listeners (hookListeners h));
                         called := called (hookListeners h) |} |}.
End Startup.

End Startup.

(** ** A host to run the model on

    A storage module that works (a key-value map), and a JSON codec for
    compact texts over integers and strings without control characters:
    the texts the writer below produces. *)

Module Host.
Import GalleryStore.

Definition keyValueStorage : Provider :=
  {| setItem := fun key value d =>
       (Ok tt, {| disk := <[key := value]> (disk d); console := console d |});
     getItem := fun key d => (Ok (disk d !! key), d) |}.

(** A storage module whose promises all reject. *)
Definition brokenStorage : Provider :=
  {| setItem := fun key value d => (Throw, d);
     getItem := fun key d => (Throw, d) |}.

Definition dquote : Ascii.ascii := "034"%char.
Definition backslash : Ascii.ascii := "092"%char.

Fixpoint escape (s : string) : string :=
  match s with
  | EmptyString => EmptyString
  | String c r =>
      if Ascii.eqb c dquote || Ascii.eqb c backslash
      then String backslash (String c (escape r))
      else String c (escape r)
  end.

Definition quote (s : string) : string :=
  String dquote (escape s +:+ String dquote EmptyString).

Fixpoint write (j : json) : string :=
  match j with
  | JNull => "null"
  | JBool b => if b then "true" else "false"
  | JNum n => pretty n
  | JStr s => quote s
  | JArr items => "[" +:+ String.concat "," (map write items) +:+ "]"
  | JObj fields =>
      "{" +:+ String.concat ","
                (map (fun kv => let '(k, v) := kv in quote k +:+ ":" +:+ write v) fields)
          +:+ "}"
  end.

(** [strip p s]: what follows the prefix [p] of [s]. *)
Fixpoint strip (p s : string) : option string :=
  match p, s with
  | EmptyString, _ => Some s
  | String a p', String b s' => if Ascii.eqb a b then strip p' s' else None
  | String _ _, EmptyString => None
  end.

Fixpoint read_digits (acc : N) (s : string) : N * string :=
  match s with
  | String c r =>
      match Ascii.is_nat c with
      | Some d => read_digits (acc * 10 + N.of_nat d) r
      | None => (acc, s)
      end
  | EmptyString => (acc, s)
  end.

(** The characters of a string literal, after its opening quote. *)
Fixpoint read_string (s : string) : option (string * string) :=
  match s with
  | EmptyString => None
  | String c r =>
      if Ascii.eqb c dquote then Some (EmptyString, r)
      else if Ascii.eqb c backslash then
        match r with
        | String e r' =>
            if Ascii.eqb e dquote || Ascii.eqb e backslash
            then '(x, rest) ← read_string r'; Some (String e x, rest)
            else None
        | EmptyString => None
        end
      else '(x, rest) ← read_string r; Some (String c x, rest)
  end.

Fixpoint read_value (fuel : nat) (s : string) {struct fuel} : option (json * string) :=
  match fuel with
  | O => None
  | S fuel =>
      match s with
      | EmptyString => None
      | String c r =>
          if Ascii.eqb c "n" then rest ← strip "ull" r; Some (JNull, rest)
          else if Ascii.eqb c "t" then rest ← strip "rue" r; Some (JBool true, rest)
          else if Ascii.eqb c "f" then rest ← strip "alse" r; Some (JBool false, rest)
          else if Ascii.eqb c dquote then
            '(x, rest) ← read_string r; Some (JStr x, rest)
          else if Ascii.eqb c "-" then
            match r with
            | String d _ =>
                if Ascii.is_nat d is Some _ then
                  let '(n, rest) := read_digits 0 r in Some (JNum (- Z.of_N n), rest)
                else None
            | EmptyString => None
            end
          else if Ascii.is_nat c is Some _ then
            let '(n, rest) := read_digits 0 s in Some (JNum (Z.of_N n), rest)
          else if Ascii.eqb c "[" then
            match r with
            | String "]" rest => Some (JArr [], rest)
            | _ => '(items, rest) ← read_items fuel r; Some (JArr items, rest)
            end
          else if Ascii.eqb c "{" then
            match r with
            | String "}" rest => Some (JObj [], rest)
            | _ => '(fields, rest) ← read_fields fuel r; Some (JObj fields, rest)
            end
          else None
      end
  end
with read_items (fuel : nat) (s : string) {struct fuel} : option (list json * string) :=
  match fuel with
  | O => None
  | S fuel =>
      '(v, rest) ← read_value fuel s;
      match rest with
      | String "," rest => '(vs, rest) ← read_items fuel rest; Some (v :: vs, rest)
      | String "]" rest => Some ([v], rest)
      | _ => None
      end
  end
with read_fields (fuel : nat) (s : string) {struct fuel}
    : option (list (string * json) * string) :=
  match fuel with
  | O => None
  | S fuel =>
      match s with
      | String c r =>
          if Ascii.eqb c dquote then
            '(k, rest) ← read_string r;
            rest ← strip ":" rest;
            '(v, rest) ← read_value fuel rest;
            match rest with
            | String "," rest => '(kvs, rest) ← read_fields fuel rest; Some ((k, v) :: kvs, rest)
            | String "}" rest => Some ([(k, v)], rest)
            | _ => None
            end
          else None
      | EmptyString => None
      end
  end.

Definition read (text : string) : result json :=
  match read_value (S (String.length text)) text with
  | Some (v, EmptyString) => Ok v
  | _ => Throw
  end.

(** The storage module is installed. *)
Definition installed : Platform :=
  {| JSON_stringify := write; JSON_parse := read;
     require_async_storage := Ok keyValueStorage |}.

(** The storage module cannot be loaded. *)
Definition missing : Platform :=
  {| JSON_stringify := write; JSON_parse := read;
     require_async_storage := Throw |}.

(** The storage module is installed and fails at every call. *)
Definition broken : Platform :=
  {| JSON_stringify := write; JSON_parse := read;
     require_async_storage := Ok brokenStorage |}.

Definition blank : Device := {| disk := ∅; console := [] |}.

(** A storage that holds, under the key of the store, the JSON text
    [null]: well-formed JSON that is not an array of photos. *)
Definition null_stored : Device :=
  {| disk := {[ STORAGE_KEY := "null" ]}; console := [] |}.

(** A media library that grants everything. *)
Definition granted : SaveToGallery.PermissionResponse :=
  {| SaveToGallery.status := SaveToGallery.Granted;
     SaveToGallery.canAskAgain := true |}.

Definition granting : SaveToGallery.MediaLibrary :=
  {| SaveToGallery.getPermissionsAsync := fun _ => Ok granted;
     SaveToGallery.requestPermissionsAsync := fun _ => Ok granted;
     SaveToGallery.saveToLibraryAsync := fun _ => Ok tt |}.

(** Two readings of the clock and of the random generator, and the photos
    [addPhoto] makes of them. *)
Definition reading_a : Reading :=
  {| now_id := 1704621234567; random := "0.5247"; now_timestamp := 1704621234567 |}.
Definition reading_b : Reading :=
  {| now_id := 1704621239876; random := "0.1093"; now_timestamp := 1704621239876 |}.

Definition photo_a : Photo := newPhoto reading_a "file://a".
Definition photo_b : Photo := newPhoto reading_b "file://b".

(** A store that holds one photo, with the storage module installed, and
    the gallery screen (listener 0) opened on it. *)
Definition one_photo : World :=
  (addPhoto (host := installed) reading_a "file://a" (start blank)).2.

Definition reviewing_one_photo : GalleryScreen.Session :=
  GalleryScreen.open 0 one_photo.

(** A media library that refuses and may not be asked again. *)
Definition denying : SaveToGallery.MediaLibrary :=
  {| SaveToGallery.getPermissionsAsync := fun _ =>
       Ok {| SaveToGallery.status := SaveToGallery.Denied;
             SaveToGallery.canAskAgain := false |};
     SaveToGallery.requestPermissionsAsync := fun _ => Throw;
     SaveToGallery.saveToLibraryAsync := fun _ => Ok tt |}.


Definition quiet (l : Listeners.Listener) : list Listeners.Action := [].




Definition throwing (l : Listeners.Listener) : list Listeners.Action :=
  match l with 1 => [Listeners.Raise] | _ => [] end.

(** Two calls of [addPhoto] that read the same clock value and the same
    random number, and two that do not. *)
Definition same_reading_twice : list (Reading * string) :=
  [(reading_a, "file://a"); (reading_a, "file://b")].

Definition two_adds : list (Reading * string) :=
  [(reading_a, "file://a"); (reading_b, "file://b")].

(** The gallery screen opened on a store that holds two photos. *)
Definition reviewing_two_photos : GalleryScreen.Session :=
  GalleryScreen.open 0 (addAll (host := installed) two_adds (start blank)).

End Host.


(** ** The card on the screen: SwipeCard.tsx

    Where the animated values of the card end. *)

Module Card.
Import Swipe.

Record Position : Type := { x : Q; y : Q }.

Definition origin : Position := {| x := 0; y := 0 |}.

Definition setAxis (a : Axis) (v : Q) (p : Position) : Position :=
  match a with
  | TranslateX => {| x := v; y := y p |}
  | TranslateY => {| x := x p; y := v |}
  end.

(** An animation ends on its [toValue]; [setValue] is immediate; a callback
    does not move the card. *)
Definition move (p : Position) (e : Effect) : Position :=
  match e with
  | Spring a toValue => setAxis a toValue p
  | Timing a toValue _ => setAxis a toValue p
  | SetValue a v => setAxis a v p
  | Invoke _ => p
  end.

(** Where the card is after a run of effects. *)
Definition rest (p : Position) (es : list Effect) : Position := foldl move p es.

(** Where the card is at each terminal callback of a run of effects. *)
Fixpoint invokedAt (p : Position) (es : list Effect) : list (Terminal * Position) :=
  match es with
  | [] => []
  | Invoke t :: es => (t, p) :: invokedAt p es
  | e :: es => invokedAt (move p e) es
  end.

End Card.

(** ** The camera: useCameraLogic.ts *)

Module Camera.

(** [useCameraPermissions()]: the permission object, or null while it is
    being read; [requestPermission] resolves to a new one or rejects. *)
Record Permission : Type := { granted : bool }.

(** [expo-camera], as far as the hook uses it: [takePictureAsync] resolves
    to a picture ([Some] of its uri) or to undefined, or rejects. *)
Record Device : Type :=
  { takePictureAsync : result (option string);
    requestPermissionAsync : result Permission }.

Inductive Call : Type :=
| TakePicture (quality : Q) (base64 : bool)
| RequestPermission.

(** The state of the hook: whether [cameraRef.current] is set, and
    [isReady]. *)
Record State : Type := { mounted : bool; isReady : bool }.

(** [useRef(null)] and [useState(false)] *)
Definition initial : State := {| mounted := false; isReady := false |}.

(** [<CameraView ref={cameraRef} />] is mounted or unmounted. *)
Definition setRef (b : bool) (st : State) : State :=
  {| mounted := b; isReady := isReady st |}.

Definition handleCameraReady (st : State) : State :=
  {| mounted := mounted st; isReady := true |}.

Definition M : Type -> Type := Eff (list Call).

Definition await {A : Type} (c : Call) (completion : result A) : M A :=
  fun t => (completion, t ++ [c]).

(** [x || null] for a string that may be undefined. *)
Definition orNull (x : option string) : option string :=
  match x with
  | Some s => if bool_decide (s ≠ EmptyString) then Some s else None
  | None => None
  end.

Section Hook.
Variable camera : Device.

Definition takePicture (st : State) : M (option string) :=
  if negb (mounted st) || negb (isReady st) then mret None
  else
    try_catch
      (photo ← await (TakePicture (8 # 10) false) (takePictureAsync camera);
       mret (orNull photo))
      (mret None).

(** No [try] here: a rejection goes to the caller. *)
Definition handleRequestPermission : M bool :=
  r ← await RequestPermission (requestPermissionAsync camera);
  mret (granted r).
End Hook.

End Camera.

(** ** The permission prompt: PermissionBlocker.tsx *)

Module PermissionBlocker.

(** The state of the callers of [onRequestPermission] and [isRequesting]. *)
Definition handleRequest {S : Type} (onRequestPermission : Eff S bool)
    : Eff (S * bool) unit :=
  fun st =>
    let isRequesting := true in
    match onRequestPermission st.1 with
    | (Ok _, s) => (Ok tt, (s, false))
    | (Throw, s) => (Throw, (s, isRequesting))
    end.

Definition title (isRequesting : bool) : string :=
  if isRequesting then "Solicitando..." else "Permitir Acceso".

Definition disabled (isRequesting : bool) : bool := isRequesting.

End PermissionBlocker.

(** ** The capture screen: camera.tsx *)

Module CameraScreen.
Import GalleryStore.

Inductive Nav : Type :=
| Push (href : string)
| Replace (href : string)
| Back.

(** The store, [capturedPhoto], the calls made to the router, the hook of
    the camera and the calls made to the camera. *)
Record Screen : Type :=
  { store : World;
    capturedPhoto : option string;
    router : list Nav;
    hook : Camera.State;
    shots : list Camera.Call }.

(** [if (s)] for a string that may be null. *)
Definition truthy (s : option string) : bool :=
  match s with
  | Some u => bool_decide (u ≠ EmptyString)
  | None => false
  end.

Inductive View : Type :=
| Blank
| Blocker
| Review (uri : string)
| Live.

(** What the screen shows, given the permission of the camera. *)
Definition render (permission : option Camera.Permission) (s : Screen) : View :=
  match permission with
  | None => Blank
  | Some p =>
      if negb (Camera.granted p) then Blocker
      else
        match capturedPhoto s with
        | Some u => if bool_decide (u ≠ EmptyString) then Review u else Live
        | None => Live
        end
  end.

Section Screen.
Context `{host : Platform}.
Variable camera : Camera.Device.

Definition handleCapture (s : Screen) : Screen :=
  match Camera.takePicture camera (hook s) (shots s) with
  | (Ok photoUri, log) =>
      {| store := store s;
         capturedPhoto := if truthy photoUri then photoUri else capturedPhoto s;
         router := router s; hook := hook s; shots := log |}
  | (Throw, log) =>
      {| store := store s; capturedPhoto := capturedPhoto s;
         router := router s; hook := hook s; shots := log |}
  end.

Definition handleSave (r : Reading) (s : Screen) : Screen :=
  match capturedPhoto s with
  | Some u =>
      if bool_decide (u ≠ EmptyString) then
        {| store := (addPhoto r u (store s)).2; capturedPhoto := None;
           router := router s ++ [Replace "/gallery"];
           hook := hook s; shots := shots s |}
      else s
  | None => s
  end.

Definition handleDiscard (s : Screen) : Screen :=
  if truthy (capturedPhoto s) then
    {| store := store s; capturedPhoto := None; router := router s;
       hook := hook s; shots := shots s |}
  else
    {| store := store s; capturedPhoto := capturedPhoto s;
       router := router s ++ [Back]; hook := hook s; shots := shots s |}.

(** The other capture screen of the file, without the review step: the
    picture taken goes to the store at once. *)
Definition handleCaptureDirect (r : Reading) (s : Screen) : Screen :=
  match Camera.takePicture camera (hook s) (shots s) with
  | (Ok photoUri, log) =>
      match photoUri with
      | Some u =>
          if bool_decide (u ≠ EmptyString) then
            {| store := (addPhoto r u (store s)).2; capturedPhoto := capturedPhoto s;
               router := router s ++ [Replace "/gallery"];
               hook := hook s; shots := log |}
          else
            {| store := store s; capturedPhoto := capturedPhoto s;
               router := router s; hook := hook s; shots := log |}
      | None =>
          {| store := store s; capturedPhoto := capturedPhoto s;
             router := router s; hook := hook s; shots := log |}
      end
  | (Throw, log) =>
      {| store := store s; capturedPhoto := capturedPhoto s;
         router := router s; hook := hook s; shots := log |}
  end.

Definition handleDiscardDirect (s : Screen) : Screen :=
  {| store := store s; capturedPhoto := capturedPhoto s;
     router := router s ++ [Back]; hook := hook s; shots := shots s |}.

(** The screen is pushed on a store; the camera view mounts and reports
    that it is ready. *)
Definition open (w : World) : Screen :=
  {| store := w; capturedPhoto := None; router := [];
     hook := Camera.handleCameraReady (Camera.setRef true Camera.initial);
     shots := [] |}.
End Screen.

End CameraScreen.

(** ** What the store needs of a storage module *)

Module StorageLaw.
Import GalleryStore.

(** The storage gives back what was set. *)
Definition keeps_what_is_set `{host : Platform} : Prop :=
  forall key value d, exists d',
    setItem AsyncStorage key value d = (Ok tt, d') /\
    getItem AsyncStorage key d' = (Ok (Some value), d').

End StorageLaw.

(** ** Several gestures in a row on the review screen *)

Module Review.
Import GalleryStore GalleryScreen.


(** A photo of the grid is pressed: [onPhotoPress={(photo) =>
    handlePhotoPress(photo.id)}]. *)
Definition onPhotoPress (self : Listeners.Listener) (photo : Photo) (s : Session)
    : Session :=
  {| world := world s;
     state := handlePhotoPress (photosOf self (world s)) (id photo) (state s);
     calls := calls s |}.

(** The button that switches between the card and the grid. *)
Definition onToggle (s : Session) : Session :=
  {| world := world s; state := toggleViewMode (state s); calls := calls s |}.

(** The cursor is on a photo. *)
Definition onPhoto (self : Listeners.Listener) (s : Session) : Prop :=
  currentIndex (state s) < length (photosOf self (world s)).

End Review.

(** ** More inputs to run the model on *)

Module Samples.
Import GalleryStore.

(** A camera that takes the picture [file://shot]. *)
Definition working : Camera.Device :=
  {| Camera.takePictureAsync := Ok (Some "file://shot");
     Camera.requestPermissionAsync := Ok {| Camera.granted := true |} |}.

(** A camera whose promises reject. *)
Definition failing : Camera.Device :=
  {| Camera.takePictureAsync := Throw;
     Camera.requestPermissionAsync := Throw |}.

(** The hook of useInitializeStore.ts with listeners 1 and 2 added. *)
Definition two_added : Startup.HookState :=
  Startup.addListener 2 (Startup.addListener 1 Startup.hookStart).

End Samples.

(** * Properties *)

(** ** Comparisons *)

Lemma Qgtb_lt (a b : Q) : Qgtb a b = true <-> (b < a)%Q.
Proof.
  unfold Qgtb. rewrite negb_true_iff, <- not_true_iff_false, Qle_bool_iff.
  split; [apply Qnot_le_lt | apply Qlt_not_le].
Qed.

Lemma Qltb_lt (a b : Q) : Qltb a b = true <-> (a < b)%Q.
Proof. unfold Qltb. apply (Qgtb_lt b a). Qed.

Lemma Qgtb_not_lt (a b : Q) : Qgtb a b = false <-> ~ (b < a)%Q.
Proof. rewrite <- Qgtb_lt. symmetry. apply not_true_iff_false. Qed.

Lemma Qltb_not_lt (a b : Q) : Qltb a b = false <-> ~ (a < b)%Q.
Proof. rewrite <- Qltb_lt. symmetry. apply not_true_iff_false. Qed.

(** ** The release decision *)

Lemma release_right (W : Q) (g : Swipe.Gesture) :
  (1 # 2 < Swipe.vx g)%Q \/ (100 < Swipe.dx g)%Q ->
  Swipe.onPanResponderRelease W g = Swipe.dismissRight W Swipe.OnSwipeRight.
Proof.
  intros Hright. unfold Swipe.onPanResponderRelease, Swipe.SWIPE_THRESHOLD.
  assert (Hb : Qgtb (Swipe.vx g) (1 # 2) || Qgtb (Swipe.dx g) 100 = true).
  { apply orb_true_iff. rewrite !Qgtb_lt. exact Hright. }
  now rewrite Hb.
Qed.

Lemma release_left (W : Q) (g : Swipe.Gesture) :
  ~ ((1 # 2 < Swipe.vx g)%Q \/ (100 < Swipe.dx g)%Q) ->
  (Swipe.vx g < - (1 # 2))%Q \/ (Swipe.dx g < - (100))%Q ->
  Swipe.onPanResponderRelease W g = Swipe.dismissLeft W Swipe.OnSwipeLeft.
Proof.
  intros Hright Hleft. unfold Swipe.onPanResponderRelease, Swipe.SWIPE_THRESHOLD.
  assert (Hb : Qgtb (Swipe.vx g) (1 # 2) || Qgtb (Swipe.dx g) 100 = false).
  { apply not_true_iff_false. rewrite orb_true_iff, !Qgtb_lt. exact Hright. }
  assert (Hc : Qltb (Swipe.vx g) (- (1 # 2)) || Qltb (Swipe.dx g) (- (100)) = true).
  { apply orb_true_iff. rewrite !Qltb_lt. exact Hleft. }
  now rewrite Hb, Hc.
Qed.

Lemma release_reset (W : Q) (g : Swipe.Gesture) :
  ~ ((1 # 2 < Swipe.vx g)%Q \/ (100 < Swipe.dx g)%Q) ->
  ~ ((Swipe.vx g < - (1 # 2))%Q \/ (Swipe.dx g < - (100))%Q) ->
  Swipe.onPanResponderRelease W g = Swipe.resetPosition.
Proof.
  intros Hright Hleft. unfold Swipe.onPanResponderRelease, Swipe.SWIPE_THRESHOLD.
  assert (Hb : Qgtb (Swipe.vx g) (1 # 2) || Qgtb (Swipe.dx g) 100 = false).
  { apply not_true_iff_false. rewrite orb_true_iff, !Qgtb_lt. exact Hright. }
  assert (Hc : Qltb (Swipe.vx g) (- (1 # 2)) || Qltb (Swipe.dx g) (- (100)) = false).
  { apply not_true_iff_false. rewrite orb_true_iff, !Qltb_lt. exact Hleft. }
  now rewrite Hb, Hc.
Qed.

(** A release takes one of the three branches. *)
Lemma release_cases (W : Q) (g : Swipe.Gesture) :
  Swipe.onPanResponderRelease W g = Swipe.dismissRight W Swipe.OnSwipeRight \/
  Swipe.onPanResponderRelease W g = Swipe.dismissLeft W Swipe.OnSwipeLeft \/
  Swipe.onPanResponderRelease W g = Swipe.resetPosition.
Proof.
  unfold Swipe.onPanResponderRelease.
  destruct (Qgtb (Swipe.vx g) (1 # 2) || Qgtb (Swipe.dx g) Swipe.SWIPE_THRESHOLD);
    [now left|].
  destruct (Qltb (Swipe.vx g) (- (1 # 2))
            || Qltb (Swipe.dx g) (- Swipe.SWIPE_THRESHOLD)); auto.
Qed.


(** C3. On release with displacement dx and velocity vx, threshold 100 and
    velocity threshold 0.5: if vx > 0.5 or dx > 100 the card commits to the
    right: it is driven in 300 ms to 1.5 screen widths on the right,
    [onSwipeRight] is called, once, and the position is set back to 0;
    otherwise, if vx < -0.5 or dx < -100, it commits to the left: the same
    towards 1.5 screen widths on the left, with [onSwipeLeft]; otherwise it
    returns to the origin, by a spring to 0 on each axis, and no terminal
    callback is called.  On a screen 400 wide: (150, 0) commits right,
    (-150, 0) commits left, (50, 0) returns and (10, 0.6) commits right. *)
Theorem C3_release_decision :
  (forall (W : Q) (g : Swipe.Gesture),
     ((1 # 2 < Swipe.vx g)%Q \/ (100 < Swipe.dx g)%Q ->
        Swipe.onPanResponderRelease W g
        = [Swipe.Timing Swipe.TranslateX (W * (3 # 2)) 300;
           Swipe.Invoke Swipe.OnSwipeRight;
           Swipe.SetValue Swipe.TranslateX 0; Swipe.SetValue Swipe.TranslateY 0] /\
        Swipe.fired (Swipe.onPanResponderRelease W g) = [Swipe.OnSwipeRight]) /\
     (~ ((1 # 2 < Swipe.vx g)%Q \/ (100 < Swipe.dx g)%Q) ->
      (Swipe.vx g < - (1 # 2))%Q \/ (Swipe.dx g < - (100))%Q ->
        Swipe.onPanResponderRelease W g
        = [Swipe.Timing Swipe.TranslateX (- W * (3 # 2)) 300;
           Swipe.Invoke Swipe.OnSwipeLeft;
           Swipe.SetValue Swipe.TranslateX 0; Swipe.SetValue Swipe.TranslateY 0] /\
        Swipe.fired (Swipe.onPanResponderRelease W g) = [Swipe.OnSwipeLeft]) /\
     (~ ((1 # 2 < Swipe.vx g)%Q \/ (100 < Swipe.dx g)%Q) ->
      ~ ((Swipe.vx g < - (1 # 2))%Q \/ (Swipe.dx g < - (100))%Q) ->
        Swipe.onPanResponderRelease W g
        = [Swipe.Spring Swipe.TranslateX 0; Swipe.Spring Swipe.TranslateY 0] /\
        Swipe.fired (Swipe.onPanResponderRelease W g) = [])) /\
  Swipe.onPanResponderRelease 400 (Swipe.release 150 0)
    = [Swipe.Timing Swipe.TranslateX (400 * (3 # 2)) 300;
       Swipe.Invoke Swipe.OnSwipeRight;
       Swipe.SetValue Swipe.TranslateX 0; Swipe.SetValue Swipe.TranslateY 0] /\
  Swipe.onPanResponderRelease 400 (Swipe.release (-150) 0)
    = [Swipe.Timing Swipe.TranslateX (- (400) * (3 # 2)) 300;
       Swipe.Invoke Swipe.OnSwipeLeft;
       Swipe.SetValue Swipe.TranslateX 0; Swipe.SetValue Swipe.TranslateY 0] /\
  Swipe.onPanResponderRelease 400 (Swipe.release 50 0)
    = [Swipe.Spring Swipe.TranslateX 0; Swipe.Spring Swipe.TranslateY 0] /\
  Swipe.fired (Swipe.onPanResponderRelease 400 (Swipe.release 50 0)) = [] /\
  Swipe.onPanResponderRelease 400 (Swipe.release 10 (6 # 10))
    = [Swipe.Timing Swipe.TranslateX (400 * (3 # 2)) 300;
       Swipe.Invoke Swipe.OnSwipeRight;
       Swipe.SetValue Swipe.TranslateX 0; Swipe.SetValue Swipe.TranslateY 0].
Proof.
  split; [| repeat split; reflexivity].
  intros W g. split; [|split].
  - intros Hright. rewrite (release_right W g Hright). now split.
  - intros Hright Hleft. rewrite (release_left W g Hright Hleft). now split.
  - intros Hright Hleft. rewrite (release_reset W g Hright Hleft). now split.
Qed.

(** The theorem on a release 150 to the right at rest. *)
Lemma C3_release_decision_witness :
  ((1 # 2 < 0)%Q \/ (100 < 150)%Q) /\
  Swipe.fired (Swipe.onPanResponderRelease 400 (Swipe.release 150 0))
  = [Swipe.OnSwipeRight].
Proof.
  split; [right; reflexivity|].
  apply (proj1 (proj1 C3_release_decision 400%Q (Swipe.release 150 0))).
  right; reflexivity.
Defined.


(** ** The export gate *)

Import SaveToGallery.

(** One case for each way through [saveToGallery]: the answer to the
    query, whether asking again is allowed, the answer to the request, and
    the completion of the copy. *)
Ltac run_gate ml uri :=
  unfold saveToGallery, requestPermission, try_catch, await, mbind, Eff_bind,
    mret, Eff_ret; simpl;
  destruct (getPermissionsAsync ml true) as [[st ca]|] eqn:Hget; simpl;
    [destruct (isGranted st) eqn:Hst; simpl;
     [| destruct ca; simpl;
        [destruct (requestPermissionsAsync ml true) as [[st' ca']|] eqn:Hreq; simpl;
         [destruct (isGranted st') eqn:Hst'; simpl |] |]];
     try (destruct (saveToLibraryAsync ml uri) as [[]|] eqn:Hsave; simpl) |].

(** The calls of [saveToGallery] go after those already made. *)
Lemma saveToGallery_log (ml : MediaLibrary) (uri : string) (log : list Call) :
  saveToGallery ml uri log =
    ((saveToGallery ml uri []).1, log ++ (saveToGallery ml uri []).2).
Proof. run_gate ml uri; now rewrite <- ?app_assoc. Qed.

Lemma saveToGallery_total (ml : MediaLibrary) (uri : string) (log : list Call) :
  exists b, (saveToGallery ml uri log).1 = Ok b.
Proof. run_gate ml uri; eauto. Qed.



(** C8. [saveToGallery] never throws.  When the permission is not granted
    and either it may not be asked again or asking again does not grant it,
    the result is false and no copy is attempted.  The result is true only
    if the copy of this photo was made and completed without error.  If any
    call made to the library rejects (query, request or copy), the result
    is false. *)
Theorem C8_export_gate (ml : MediaLibrary) (uri : string) (log : list Call) :
  let out := saveToGallery ml uri log in
  let new := (saveToGallery ml uri []).2 in
  (exists b : bool, out.1 = Ok b) /\
  out.2 = log ++ new /\
  ((exists p, getPermissionsAsync ml true = Ok p /\
              isGranted (status p) = false /\
              (canAskAgain p = false \/
               forall r, requestPermissionsAsync ml true = Ok r ->
                         isGranted (status r) = false)) ->
   out.1 = Ok false /\ copies new = []) /\
  (out.1 = Ok true ->
   saveToLibraryAsync ml uri = Ok tt /\ copies new = [uri]) /\
  ((exists c, c ∈ new /\ rejects ml c = true) -> out.1 = Ok false).
Proof.
  intros out new. subst out new. rewrite (saveToGallery_log ml uri log). simpl.
  unfold copies, rejects. run_gate ml uri.
  all: split; [eauto | split; [reflexivity | split; [| split]]].
  all: try (intros (p & Hp & Hg & Hc);
            first [now split
                  | injection Hp as <-; simpl in *;
                    first [congruence
                          | destruct Hc as [Hc|Hc];
                            [discriminate
                            | specialize (Hc _ eq_refl); simpl in Hc; congruence]]]).
  all: try (intros Htrue; first [discriminate | now split]).
  all: try reflexivity.
  all: intros (c & Hc & Hr);
       repeat (apply elem_of_cons in Hc as [->|Hc];
               [first [rewrite Hget in Hr | rewrite Hreq in Hr | rewrite Hsave in Hr];
                discriminate |]);
       now apply elem_of_nil in Hc.
Qed.

(** The theorem on a library that refuses. *)
Lemma C8_export_gate_witness :
  (saveToGallery Host.denying "file://a" []).1 = Ok false /\
  copies (saveToGallery Host.denying "file://a" []).2 = [].
Proof.
  destruct (C8_export_gate Host.denying "file://a" []) as (_ & _ & Hdeny & _).
  apply Hdeny. exists {| status := Denied; canAskAgain := false |}.
  split; [reflexivity|]. split; [reflexivity|]. left; reflexivity.
Defined.

(** ** The Set of listeners *)

Import Listeners.


Lemma values_app (s1 s2 : SetData) : values (s1 ++ s2) = values s1 ++ values s2.
Proof. apply omap_app. Qed.

Lemma elem_of_values (l : Listener) (s : SetData) : l ∈ values s <-> Some l ∈ s.
Proof.
  unfold values. rewrite list_elem_of_omap. split.
  - intros ([x|] & Hin & Hx); simpl in Hx; [|discriminate]. now injection Hx as ->.
  - intros Hin. now exists (Some l).
Qed.

Lemma values_delete (l : Listener) (s : SetData) :
  values (Listeners.delete l s) = filter (fun x => x ≠ l) (values s).
Proof.
  induction s as [|[x|] s IH]; simpl; [reflexivity | | exact IH].
  rewrite filter_cons.
  destruct (decide (Some x = Some l)) as [[= ->]|Hne].
  - rewrite decide_False by auto. exact IH.
  - rewrite decide_True by congruence. now f_equal.
Qed.












(** ** The store *)

Import GalleryStore.

Lemma pretty_N_go_dash_free (x : N) (s : string) :
  dash_free s -> dash_free (pretty_N_go x s).
Proof.
  revert s. induction (N.lt_wf_0 x) as [x _ IH]; intros s Hs.
  destruct (decide (x = 0%N)) as [->|Hx]; [now rewrite pretty_N_go_0|].
  rewrite pretty_N_go_step by lia. apply IH.
  - apply N.div_lt; lia.
  - simpl. split; [|exact Hs].
    unfold pretty_N_char. repeat case_match; discriminate.
Qed.

Lemma pretty_N_dash_free (x : N) : dash_free (pretty x).
Proof.
  unfold pretty, pretty_N. case_decide.
  - simpl. split; [discriminate | exact I].
  - apply pretty_N_go_dash_free. exact I.
Qed.

(** A text is cut at its first dash in one way only. *)
Lemma dash_split (s1 s2 r1 r2 : string) :
  dash_free s1 -> dash_free s2 ->
  s1 +:+ String "-" r1 = s2 +:+ String "-" r2 -> s1 = s2 /\ r1 = r2.
Proof.
  revert s2. induction s1 as [|a s1 IH]; intros [|b s2] H1 H2 Heq; simpl in *.
  - now injection Heq as ->.
  - injection Heq as <- _. now destruct H2.
  - injection Heq as -> _. now destruct H1.
  - injection Heq as -> Heq. destruct H1 as [_ H1], H2 as [_ H2].
    destruct (IH s2 H1 H2 Heq) as [-> ->]. now split.
Qed.

(** Two ids are equal only when they come from the same clock reading and
    the same random number. *)
Lemma newPhoto_id_inj (r1 r2 : Reading) (u1 u2 : string) :
  id (newPhoto r1 u1) = id (newPhoto r2 u2) ->
  now_id r1 = now_id r2 /\ random r1 = random r2.
Proof.
  unfold newPhoto; simpl. intros Heq. injection Heq as Heq.
  apply dash_split in Heq as [Hn Hr]; try apply pretty_N_dash_free.
  split; [now apply (inj pretty) | exact Hr].
Qed.

Section StoreFacts.
Context `{host : Platform}.

Lemma notifyListeners_fold (ls : list Listener) (w : World) :
  let w' := foldl (fun w l => listener l w) w ls in
  globalPhotos w' = globalPhotos w /\ listeners w' = listeners w /\
  device w' = device w.
Proof.
  revert w. induction ls as [|l ls IH]; intros w; simpl; [auto|].
  destruct (IH (listener l w)) as (-> & -> & ->). auto.
Qed.

Lemma globalPhotos_notifyListeners (w : World) :
  globalPhotos (notifyListeners w) = globalPhotos w.
Proof. apply notifyListeners_fold. Qed.

Lemma addPhoto_globalPhotos (r : Reading) (u : string) (w : World) :
  globalPhotos (addPhoto r u w).2 = newPhoto r u :: globalPhotos w.
Proof. unfold addPhoto; simpl. now rewrite globalPhotos_notifyListeners. Qed.

Lemma removePhoto_globalPhotos (i : string) (w : World) :
  globalPhotos (removePhoto i w) = filter (fun p => id p ≠ i) (globalPhotos w).
Proof. unfold removePhoto; simpl. now rewrite globalPhotos_notifyListeners. Qed.

Lemma addAll_globalPhotos (calls : list (Reading * string)) (w : World) :
  globalPhotos (addAll calls w)
  = reverse ((fun c => newPhoto c.1 c.2) <$> calls) ++ globalPhotos w.
Proof.
  unfold addAll. revert w. induction calls as [|c calls IH]; intros w.
  - reflexivity.
  - cbn [foldl]. rewrite IH, addPhoto_globalPhotos, fmap_cons, reverse_cons.
    now rewrite <- app_assoc.
Qed.

(** C7, as the code has it.  [addPhoto] evaluates to nothing.  It puts at
    the head of the collection a photo with the given uri, the id
    photo-<clock>-<random> and the clock as timestamp, before the photos
    that were there.  Starting from the empty collection, the ids are
    pairwise distinct whenever no two calls read both the same clock value
    and the same random number. *)
Theorem C7_add_prepends :
  (forall (r : Reading) (u : string) (w : World),
     (addPhoto r u w).1 = None /\
     globalPhotos (addPhoto r u w).2
     = {| id := "photo-" +:+ pretty (now_id r) +:+ "-" +:+ random r;
          uri := u; timestamp := now_timestamp r |} :: globalPhotos w /\
     uri <$> head (globalPhotos (addPhoto r u w).2) = Some u) /\
  (forall (calls : list (Reading * string)) (d : Device),
     NoDup ((fun c => (now_id c.1, random c.1)) <$> calls) ->
     NoDup (id <$> globalPhotos (addAll calls (start d)))).
Proof.
  split.
  - intros r u w. rewrite addPhoto_globalPhotos. now repeat split.
  - intros calls d Hnd. rewrite addAll_globalPhotos. simpl. rewrite app_nil_r.
    rewrite fmap_reverse, reverse_Permutation.
    induction calls as [|c calls IH]; [constructor|].
    rewrite !fmap_cons in *. apply NoDup_cons in Hnd as [Hc Hnd].
    apply NoDup_cons. split; [|now apply IH].
    intros Hin. apply Hc. rewrite <- list_fmap_compose in Hin.
    apply list_elem_of_fmap in Hin as (c' & Hid & Hc').
    apply (newPhoto_id_inj c.1 c'.1 c.2 c'.2) in Hid as [Hn Hr].
    apply list_elem_of_fmap. exists c'. split; [now rewrite Hn, Hr | exact Hc'].
Qed.
End StoreFacts.

(** C7, as the specification states it, fails twice: the call of
    [addPhoto] evaluates to nothing, not to the photo created, and two
    calls that read the same clock value and the same random number give
    the same id. *)
Lemma C7_counterexample :
  (addPhoto (host := Host.installed) Host.reading_a "file://a" (start Host.blank)).1
    <> Some (newPhoto Host.reading_a "file://a") /\
  id <$> globalPhotos
           (addAll (host := Host.installed) Host.same_reading_twice (start Host.blank))
    = ["photo-1704621234567-0.5247"; "photo-1704621234567-0.5247"] /\
  ~ NoDup (id <$> globalPhotos
                    (addAll (host := Host.installed) Host.same_reading_twice
                       (start Host.blank))).
Proof.
  split; [discriminate|].
  assert (Hids : id <$> globalPhotos
                          (addAll (host := Host.installed) Host.same_reading_twice
                             (start Host.blank))
                 = ["photo-1704621234567-0.5247"; "photo-1704621234567-0.5247"])
    by (vm_compute; reflexivity).
  split; [exact Hids|]. rewrite Hids. intros Hnd.
  apply NoDup_cons in Hnd as [Hnotin _]. apply Hnotin. now left.
Qed.

(** The theorem on two calls with different readings. *)
Lemma C7_add_prepends_witness :
  NoDup ((fun c => (now_id c.1, random c.1)) <$> Host.two_adds) /\
  NoDup (id <$> globalPhotos
                  (addAll (host := Host.installed) Host.two_adds (start Host.blank))).
Proof.
  assert (Hnd : NoDup ((fun c => (now_id c.1, random c.1)) <$> Host.two_adds)).
  { apply NoDup_cons. split; [|apply NoDup_singleton].
    intros Hin. apply list_elem_of_singleton in Hin. discriminate. }
  split; [exact Hnd|].
  apply (proj2 (C7_add_prepends (host := Host.installed)) Host.two_adds Host.blank Hnd).
Defined.

(** ** Storage *)

Section StorageFacts.
Context `{host : Platform}.

Lemma loadPhotosFromStorage_total (d : Device) :
  exists v, (loadPhotosFromStorage d).1 = Ok v.
Proof.
  unfold loadPhotosFromStorage, try_catch, mbind, Eff_bind, mret, Eff_ret, lift.
  destruct (getItem AsyncStorage STORAGE_KEY d) as [[[text|]|] d0]; simpl; eauto.
  case_bool_decide; simpl; eauto.
  destruct (JSON_parse text); simpl; eauto.
Qed.

(** A collection is read back from its JSON value. *)
Lemma json_of_photos_inj (ps qs : list Photo) :
  json_of_photos ps = json_of_photos qs -> ps = qs.
Proof.
  unfold json_of_photos. intros [= Heq]. revert qs Heq.
  induction ps as [|[i u t] ps IH]; intros [|[i' u' t'] qs] Heq; try discriminate.
  - reflexivity.
  - rewrite !fmap_cons in Heq. injection Heq as Hi Hu Ht Hrest.
    apply N2Z.inj in Ht. subst. f_equal. now apply IH.
Qed.

(** C9, as the code has it.  [loadPhotosFromStorage] never throws.  It
    gives the empty collection when reading the key rejects (unreadable),
    when there is nothing under the key (absent), and when the text under
    the key is empty or is not JSON: [JSON.parse] throws.  Otherwise it
    gives what [JSON.parse] makes of the text, unchecked: the stored
    collection when the text is the JSON of a collection, and for any
    other JSON text a value that is neither the empty collection nor a
    collection. *)
Theorem C9_load_total (d : Device) :
  (exists v, (loadPhotosFromStorage d).1 = Ok v) /\
  (forall d', getItem AsyncStorage STORAGE_KEY d = (Throw, d') ->
     (loadPhotosFromStorage d).1 = Ok (JArr [])) /\
  (forall d', getItem AsyncStorage STORAGE_KEY d = (Ok None, d') ->
     (loadPhotosFromStorage d).1 = Ok (JArr [])) /\
  (forall d' text, getItem AsyncStorage STORAGE_KEY d = (Ok (Some text), d') ->
     JSON_parse text = Throw \/ text = EmptyString ->
     (loadPhotosFromStorage d).1 = Ok (JArr [])) /\
  (forall d' text v, getItem AsyncStorage STORAGE_KEY d = (Ok (Some text), d') ->
     text <> EmptyString -> JSON_parse text = Ok v ->
     (loadPhotosFromStorage d).1 = Ok v /\
     (forall photos, v = json_of_photos photos ->
        forall photos', (loadPhotosFromStorage d).1 = Ok (json_of_photos photos') ->
                        photos' = photos) /\
     ((forall photos, v <> json_of_photos photos) ->
        forall photos, (loadPhotosFromStorage d).1 <> Ok (json_of_photos photos))).
Proof.
  unfold loadPhotosFromStorage, try_catch, mbind, Eff_bind, mret, Eff_ret, lift.
  destruct (getItem AsyncStorage STORAGE_KEY d) as [[[text|]|] d0] eqn:Hget; simpl;
    [case_bool_decide as Hne; simpl;
     [destruct (JSON_parse text) as [v|] eqn:Hparse; simpl |] | |].
  all: split; [eauto|].
  all: split; [intros; simplify_eq; reflexivity|].
  all: split; [intros; simplify_eq; reflexivity|].
  all: split.
  all: try (intros d' text' Hd' Hbad; simplify_eq;
            first [reflexivity | destruct Hbad; [congruence | subst; now destruct Hne]]).
  all: intros d' text' v' Hd' Hne' Hparse'; simplify_eq; try congruence.
  assert (v' = v) as -> by congruence.
  split; [reflexivity|]. split.
  - intros photos -> photos' Heq. apply json_of_photos_inj. congruence.
  - intros Hnot photos Heq. apply (Hnot photos). congruence.
Qed.

(** C10. When the storage module cannot be loaded, [AsyncStorage] is the
    stub: its [getItem] gives null and its [setItem] keeps nothing.  Then
    every [savePhotosToStorage] completes normally and leaves the storage
    as it was (a line on the console names the key), and every
    [loadPhotosFromStorage] completes normally with the empty collection,
    also after photos have been saved. *)
Theorem C10_mock_fallback :
  require_async_storage = Throw ->
  AsyncStorage = mockStorage /\
  (forall key d, getItem AsyncStorage key d = (Ok None, d)) /\
  (forall key value d,
     (setItem AsyncStorage key value d).1 = Ok tt /\
     disk (setItem AsyncStorage key value d).2 = disk d) /\
  (forall photos d,
     (savePhotosToStorage photos d).1 = Ok tt /\
     disk (savePhotosToStorage photos d).2 = disk d /\
     console (savePhotosToStorage photos d).2
     = console d ++ ["Mock setItem: @appwha_gallery"]) /\
  (forall d, loadPhotosFromStorage d = (Ok (JArr []), d)) /\
  (forall photos d,
     (loadPhotosFromStorage (savePhotosToStorage photos d).2).1 = Ok (JArr [])).
Proof.
  intros Hreq.
  assert (Hmock : AsyncStorage = mockStorage) by (unfold AsyncStorage; now rewrite Hreq).
  unfold savePhotosToStorage, loadPhotosFromStorage. rewrite Hmock.
  repeat split.
Qed.
End StorageFacts.

(** The theorem on the storage a session with one photo leaves. *)
Lemma C9_load_total_witness :
  (loadPhotosFromStorage (host := Host.installed) (device Host.one_photo)).1
  = Ok (json_of_photos [Host.photo_a]).
Proof.
  destruct (C9_load_total (host := Host.installed) (device Host.one_photo))
    as (_ & _ & _ & _ & Hstored).
  apply (Hstored (device Host.one_photo) (Host.write (json_of_photos [Host.photo_a]))).
  - reflexivity.
  - discriminate.
  - vm_compute. reflexivity.
Defined.

(** C9, as the specification states it, fails.  The storage holds the text
    [null] under the key: it is read without error and it is JSON, and
    [loadPhotosFromStorage] gives null, which is neither the empty
    collection nor any collection. *)
Lemma C9_counterexample :
  getItem (AsyncStorage (H := Host.installed)) STORAGE_KEY Host.null_stored
  = (Ok (Some "null"), Host.null_stored) /\
  JSON_parse (Platform := Host.installed) "null" = Ok JNull /\
  (loadPhotosFromStorage (host := Host.installed) Host.null_stored).1 = Ok JNull /\
  (loadPhotosFromStorage (host := Host.installed) Host.null_stored).1 <> Ok (JArr []) /\
  forall photos,
    (loadPhotosFromStorage (host := Host.installed) Host.null_stored).1
    <> Ok (json_of_photos photos).
Proof.
  assert (Hload : (loadPhotosFromStorage (host := Host.installed) Host.null_stored).1
                  = Ok JNull) by (vm_compute; reflexivity).
  split; [vm_compute; reflexivity|]. split; [reflexivity|]. split; [exact Hload|].
  rewrite Hload. split; [discriminate|]. intros photos. discriminate.
Qed.

(** The theorem on a host without the storage module. *)
Lemma C10_mock_fallback_witness :
  (loadPhotosFromStorage (host := Host.missing)
     (savePhotosToStorage (host := Host.missing) [Host.photo_a] Host.blank).2).1
  = Ok (JArr []).
Proof.
  destruct (C10_mock_fallback (host := Host.missing) eq_refl)
    as (_ & _ & _ & _ & _ & Hload).
  apply Hload.
Defined.

(** ** The review screen *)

Import GalleryScreen.

Section ScreenFacts.
Context `{host : Platform}.
Variable self : Listener.
Variable ml : MediaLibrary.

(** What the handler of a swipe to the right does to a session. *)
Lemma onSwipeRight_spec (s : Session) :
  let photos := photosOf self (world s) in
  world (onSwipeRight self ml s) = world s /\
  state (onSwipeRight self ml s) = moveToNext photos (state s) /\
  calls (onSwipeRight self ml s)
  = match photos !! currentIndex (state s) with
    | Some p => (saveToGallery ml (uri p) (calls s)).2
    | None => calls s
    end.
Proof.
  unfold onSwipeRight, handleSwipeRight, mbind, Eff_bind, mret, Eff_ret. simpl.
  destruct (photosOf self (world s) !! currentIndex (state s)) as [p|]; simpl.
  - destruct (saveToGallery_total ml (uri p) (calls s)) as [b Hb].
    destruct (saveToGallery ml (uri p) (calls s)) as [r log]. simpl in Hb.
    rewrite Hb. simpl. auto.
  - auto.
Qed.

Lemma gesture_right (W : Q) (g : Swipe.Gesture) (s : Session) :
  (1 # 2 < Swipe.vx g)%Q \/ (100 < Swipe.dx g)%Q ->
  gesture self ml W g s = onSwipeRight self ml s.
Proof.
  intros Hright. unfold gesture.
  now rewrite (release_right W g Hright).
Qed.
End ScreenFacts.

Section Review.
Context `{host : Platform}.
Variable self : Listener.
Variable ml : MediaLibrary.

(** C1, as the code has it.  A gesture that commits to the right calls
    [saveToGallery] once with the uri of the current photo (the calls to the
    library are those of that one call; none when there is no current
    photo), leaves the store as it was: the photo reviewed stays in the
    collection, and moves the cursor with [moveToNext]: one position up
    when the photo is not the last of the sequence, otherwise to the grid
    with the cursor at 0. *)
Theorem C1_commit_right_exports_and_keeps (W : Q) (g : Swipe.Gesture) (s : Session) :
  (1 # 2 < Swipe.vx g)%Q \/ (100 < Swipe.dx g)%Q ->
  let photos := photosOf self (world s) in
  let i := currentIndex (state s) in
  let s' := gesture self ml W g s in
  world s' = world s /\
  calls s' = match photos !! i with
             | Some p => (saveToGallery ml (uri p) (calls s)).2
             | None => calls s
             end /\
  (S i < length photos ->
     state s' = {| viewMode := viewMode (state s); currentIndex := S i |}) /\
  (length photos <= S i ->
     state s' = {| viewMode := GridMode; currentIndex := 0 |}).
Proof.
  intros Hright photos i s'. subst s'. rewrite (gesture_right self ml W g s Hright).
  destruct (onSwipeRight_spec self ml s) as (Hw & Hs & Hc).
  split; [exact Hw|]. split; [exact Hc|]. rewrite Hs. fold photos i.
  unfold moveToNext. fold i.
  split; intros Hlen.
  - rewrite (proj2 (Z.ltb_lt _ _)) by lia. now rewrite Nat.add_1_r.
  - now rewrite (proj2 (Z.ltb_ge _ _)) by lia.
Qed.

End Review.

(** C1, as the specification states it, fails: the handler of a swipe to
    the right does not call [removePhoto].  One photo is in the store and
    on the card; the gesture commits to the right, the photo is sent to the
    library, and it is still in the collection. *)
Lemma C1_counterexample :
  render 0 Host.reviewing_one_photo = Card Host.photo_a /\
  calls (gesture (host := Host.installed) 0 Host.granting 400 (Swipe.release 150 0)
           Host.reviewing_one_photo)
  = [GetPermissions true; SaveToLibrary "file://a"] /\
  Host.photo_a
  ∈ globalPhotos
      (world (gesture (host := Host.installed) 0 Host.granting 400
                (Swipe.release 150 0) Host.reviewing_one_photo)).
Proof.
  split; [vm_compute; reflexivity|]. split; [vm_compute; reflexivity|].
  assert (Hg : globalPhotos
                 (world (gesture (host := Host.installed) 0 Host.granting 400
                           (Swipe.release 150 0) Host.reviewing_one_photo))
               = [Host.photo_a])
    by (vm_compute; reflexivity).
  rewrite Hg. now left.
Qed.

(** The theorem on that gesture. *)
Lemma C1_commit_right_exports_and_keeps_witness :
  ((1 # 2 < 0)%Q \/ (100 < 150)%Q) /\
  world (gesture (host := Host.installed) 0 Host.granting 400 (Swipe.release 150 0)
           Host.reviewing_one_photo)
  = world Host.reviewing_one_photo.
Proof.
  split; [right; reflexivity|].
  apply (C1_commit_right_exports_and_keeps (host := Host.installed)
           0 Host.granting 400%Q (Swipe.release 150 0) Host.reviewing_one_photo).
  right; reflexivity.
Defined.

(** Every listener of the Set is handed the collection. *)
Lemma snapshots_fold (ls : list Listener) (w : World) (x : Listener) :
  snapshots (foldl (fun w l => listener l w) w ls) !! x
  = if bool_decide (x ∈ ls) then Some (globalPhotos w) else snapshots w !! x.
Proof.
  revert w. induction ls as [|l ls IH]; intros w.
  - cbn [foldl]. rewrite bool_decide_eq_false_2; [reflexivity|]. apply not_elem_of_nil.
  - cbn [foldl]. rewrite IH. cbn [listener setPhotos globalPhotos snapshots].
    destruct (decide (x ∈ ls)) as [Hin|Hnotin].
    + rewrite !bool_decide_eq_true_2; [reflexivity | now right | exact Hin].
    + rewrite (bool_decide_eq_false_2 _ Hnotin).
      destruct (decide (x = l)) as [->|Hne].
      * rewrite bool_decide_eq_true_2 by now left. apply lookup_insert_eq.
      * rewrite bool_decide_eq_false_2.
        -- now apply lookup_insert_ne.
        -- intros Hin. apply elem_of_cons in Hin as [?|?]; contradiction.
Qed.

(** After a notification a subscribed component reads the collection. *)
Lemma photosOf_notifyListeners (l : Listener) (w : World) :
  l ∈ values (listeners w) -> photosOf l (notifyListeners w) = globalPhotos w.
Proof.
  intros Hin. unfold photosOf, notifyListeners.
  now rewrite snapshots_fold, bool_decide_eq_true_2.
Qed.

Lemma filter_all {A : Type} (P : A -> Prop) `{forall x, Decision (P x)} (l : list A) :
  (forall x, x ∈ l -> P x) -> filter P l = l.
Proof.
  induction l as [|x l IH]; intros Hall; [reflexivity|].
  rewrite filter_cons_True by (apply Hall; now left).
  f_equal. apply IH. intros y Hy. apply Hall. now right.
Qed.

(** With distinct ids, removing by id removes one position. *)
Lemma filter_id_delete (photos : list Photo) (i : nat) (p : Photo) :
  NoDup (id <$> photos) -> photos !! i = Some p ->
  filter (fun q => id q ≠ id p) photos = base.delete i photos.
Proof.
  revert i. induction photos as [|q photos IH]; intros i Hnd Hi; [discriminate|].
  rewrite fmap_cons in Hnd. apply NoDup_cons in Hnd as [Hq Hnd].
  rewrite filter_cons. destruct i as [|i]; simpl in Hi.
  - injection Hi as ->. rewrite decide_False by auto. simpl.
    apply filter_all. intros q Hin Heq. apply Hq. rewrite <- Heq.
    now apply list_elem_of_fmap_2.
  - rewrite decide_True.
    + simpl. f_equal. now apply IH.
    + intros Heq. apply Hq. rewrite Heq.
      apply list_elem_of_fmap_2. now apply list_elem_of_lookup_2 in Hi.
Qed.

(** C4 on the code.  The screen is subscribed and shows the collection,
    whose ids are distinct; the current photo, at index i, is not the last
    one.  After a swipe to the left the collection has lost that photo and
    the cursor is at i + 1, not at i: it is on the photo that was at i + 2,
    if any, and the photo that followed the one removed is passed over.
    From the empty collection, add a, add b, and a swipe to the left on b
    at index 0: the collection is [a], the cursor is at 1, where there is
    no photo, and the screen shows the grid. *)
Theorem C4_commit_left_moves_cursor_up :
  (forall (host : Platform) (self : Listener) (s : Session),
     self ∈ values (listeners (world s)) ->
     photosOf self (world s) = globalPhotos (world s) ->
     NoDup (id <$> globalPhotos (world s)) ->
     S (currentIndex (state s)) < length (globalPhotos (world s)) ->
     let i := currentIndex (state s) in
     let s' := onSwipeLeft self s in
     globalPhotos (world s') = base.delete i (globalPhotos (world s)) /\
     photosOf self (world s') = globalPhotos (world s') /\
     state s' = {| viewMode := viewMode (state s); currentIndex := S i |} /\
     photosOf self (world s') !! currentIndex (state s')
     = globalPhotos (world s) !! S (S i)) /\
  (forall (host : Platform) (ml : MediaLibrary) (d : Device),
     let s := open 0 (addAll Host.two_adds (start d)) in
     let s' := gesture 0 ml 400 (Swipe.release (-150) 0) s in
     globalPhotos (world s) = [Host.photo_b; Host.photo_a] /\
     render 0 s = Card Host.photo_b /\
     globalPhotos (world s') = [Host.photo_a] /\
     photosOf 0 (world s') = [Host.photo_a] /\
     state s' = {| viewMode := SwipeMode; currentIndex := 1 |} /\
     photosOf 0 (world s') !! currentIndex (state s') = None /\
     render 0 s' = Grid [Host.photo_a]).
Proof.
  split.
  - intros host self s Hsub Hsync Hnd Hlen i s'. subst s'.
    unfold onSwipeLeft, handleSwipeLeft. rewrite Hsync. fold i.
    destruct (lookup_lt_is_Some_2 (globalPhotos (world s)) i) as [p Hp]; [lia|].
    rewrite Hp.
    destruct (length (globalPhotos (world s)) =? 1)%nat eqn:Hone.
    { apply Nat.eqb_eq in Hone. lia. }
    unfold moveToNext. fold i. rewrite (proj2 (Z.ltb_lt _ _)) by lia. simpl.
    assert (Hg : globalPhotos (removePhoto (id p) (world s))
                 = base.delete i (globalPhotos (world s))).
    { rewrite removePhoto_globalPhotos. now apply filter_id_delete. }
    assert (Hv : photosOf self (removePhoto (id p) (world s))
                 = base.delete i (globalPhotos (world s))).
    { unfold removePhoto. rewrite photosOf_notifyListeners; [|exact Hsub].
      simpl. now apply filter_id_delete. }
    rewrite Hg, Hv, Nat.add_1_r. repeat split.
    apply list_lookup_delete_ge. lia.
  - intros host ml d s s'. repeat split; vm_compute; reflexivity.
Qed.

(** The theorem on the two photos of the scenario. *)
Lemma C4_commit_left_moves_cursor_up_witness :
  Host.reviewing_two_photos.(state).(currentIndex) = 0 /\
  globalPhotos (world (onSwipeLeft (host := Host.installed) 0 Host.reviewing_two_photos))
  = [Host.photo_a] /\
  state (onSwipeLeft (host := Host.installed) 0 Host.reviewing_two_photos)
  = {| viewMode := SwipeMode; currentIndex := 1 |}.
Proof.
  split; [reflexivity|].
  destruct (proj1 C4_commit_left_moves_cursor_up Host.installed 0
              Host.reviewing_two_photos) as (Hg & _ & Hs & _).
  - vm_compute. now left.
  - vm_compute. reflexivity.
  - apply NoDup_cons. split; [|apply NoDup_singleton].
    intros Hin. apply list_elem_of_singleton in Hin. discriminate.
  - simpl. lia.
  - split; [exact Hg | exact Hs].
Defined.

(** ** Opening the application *)

Import Startup.

(** C2 on the code.  The collection is empty when the module is loaded and
    is still empty after [initializeApp]: what [loadPhotosFromStorage]
    reads is not stored anywhere, and the screen opened next shows the
    empty state.  The hook of useInitializeStore.ts puts what it reads in a
    variable of its own and leaves the store as [initializeApp] does.  With
    a photo saved by a previous session, the storage gives that photo back
    and the collection is empty all the same. *)
Theorem C2_startup_leaves_collection_empty :
  (forall (host : Platform) (d : Device),
     globalPhotos (start d) = [] /\
     globalPhotos (initializeApp (start d)) = [] /\
     (forall self, render self (open self (initializeApp (start d))) = EmptyState) /\
     (forall body fuel, exists h,
        initialize body fuel hookStart (start d) = Some (h, initializeApp (start d)) /\
        Ok (hookPhotos h) = (loadPhotosFromStorage d).1)) /\
  (let a := newPhoto Host.reading_a "file://a" in
   let d := device (addPhoto (host := Host.installed) Host.reading_a "file://a"
                      (start Host.blank)).2 in
   (loadPhotosFromStorage (host := Host.installed) d).1 = Ok (json_of_photos [a]) /\
   globalPhotos (initializeApp (host := Host.installed) (start d)) = [] /\
   render 0 (open 0 (initializeApp (host := Host.installed) (start d))) = EmptyState).
Proof.
  split.
  - intros host d. split; [reflexivity|].
    assert (Hinit : globalPhotos (initializeApp (start d)) = []).
    { unfold initializeApp. simpl.
      destruct (loadPhotosFromStorage d) as [[v|] d']; reflexivity. }
    split; [exact Hinit|]. split.
    + intros self. unfold render, open, photosOf, mount. simpl.
      rewrite lookup_insert_eq. simpl. now rewrite Hinit.
    + intros body fuel. unfold initialize, initializeApp. simpl.
      destruct (loadPhotosFromStorage_total d) as [v Hv].
      destruct (loadPhotosFromStorage d) as [r d']. simpl in Hv. subst r.
      destruct fuel; simpl; eexists; split; reflexivity.
  - repeat split; vm_compute; reflexivity.
Qed.

(** * More of the code *)

(** ** The store: mutations, listeners and storage *)

Import StorageLaw.

Section StoreLaws.
Context `{host : Platform}.

Lemma snapshots_notifyListeners (l : Listener) (w : World) :
  snapshots (notifyListeners w) !! l
  = if bool_decide (l ∈ values (listeners w)) then Some (globalPhotos w)
    else snapshots w !! l.
Proof. unfold notifyListeners. apply snapshots_fold. Qed.

Lemma listeners_notifyListeners (w : World) :
  listeners (notifyListeners w) = listeners w.
Proof. apply notifyListeners_fold. Qed.

Lemma device_notifyListeners (w : World) :
  device (notifyListeners w) = device w.
Proof. apply notifyListeners_fold. Qed.

Lemma clearPhotos_globalPhotos (w : World) : globalPhotos (clearPhotos w) = [].
Proof. unfold clearPhotos. now rewrite globalPhotos_notifyListeners. Qed.

(** X1. [removePhoto] takes out every photo that has the id and no other
    one, and keeps the order of those that stay; with an id that no photo
    has, the collection is the same. *)
Theorem X1_removePhoto_removes_by_id (i : string) (w : World) :
  (forall p, p ∈ globalPhotos (removePhoto i w) <-> p ∈ globalPhotos w /\ id p ≠ i) /\
  (globalPhotos (removePhoto i w) `sublist_of` globalPhotos w) /\
  (i ∉ id <$> globalPhotos w -> globalPhotos (removePhoto i w) = globalPhotos w).
Proof.
  rewrite removePhoto_globalPhotos. split; [|split].
  - intros p. rewrite list_elem_of_filter. tauto.
  - apply sublist_filter.
  - intros Hnotin. apply filter_all. intros p Hp Heq. apply Hnotin.
    rewrite <- Heq. now apply list_elem_of_fmap_2.
Qed.

(** The [photos] of a component whose listener is not in the Set are left
    alone by the three mutations. *)
Lemma mutations_skip_unsubscribed (l : Listener) (w : World) :
  l ∉ values (listeners w) ->
  (forall r u, snapshots (addPhoto r u w).2 !! l = snapshots w !! l) /\
  (forall i, snapshots (removePhoto i w) !! l = snapshots w !! l) /\
  snapshots (clearPhotos w) !! l = snapshots w !! l.
Proof.
  intros Hl.
  repeat split; intros; unfold addPhoto, removePhoto, clearPhotos; cbn [snd];
    rewrite snapshots_notifyListeners; now rewrite bool_decide_eq_false_2.
Qed.

(** X2. After [addPhoto], [removePhoto] and [clearPhotos], a component
    whose listener is in the Set reads the new collection at its next
    render, and the [photos] of a component whose listener is not in the
    Set are what they were. *)
Theorem X2_mutations_reach_subscribers (l : Listener) (w : World) :
  (l ∈ values (listeners w) ->
     (forall r u, photosOf l (addPhoto r u w).2 = globalPhotos (addPhoto r u w).2) /\
     (forall i, photosOf l (removePhoto i w) = globalPhotos (removePhoto i w)) /\
     photosOf l (clearPhotos w) = []) /\
  (l ∉ values (listeners w) ->
     (forall r u, snapshots (addPhoto r u w).2 !! l = snapshots w !! l) /\
     (forall i, snapshots (removePhoto i w) !! l = snapshots w !! l) /\
     snapshots (clearPhotos w) !! l = snapshots w !! l).
Proof.
  split; intros Hl.
  - repeat split; intros; unfold addPhoto, removePhoto, clearPhotos; cbn [snd];
      rewrite ?globalPhotos_notifyListeners;
      now rewrite photosOf_notifyListeners.
  - now apply mutations_skip_unsubscribed.
Qed.

Lemma elem_of_values_add (x l : Listener) (s : SetData) :
  x ∈ values (add l s) <-> x = l \/ x ∈ values s.
Proof.
  unfold add, has. case_bool_decide as Hin.
  - split; [now right|]. intros [->|Hx]; [now apply elem_of_values | exact Hx].
  - rewrite values_app, elem_of_app. cbn. rewrite list_elem_of_singleton. tauto.
Qed.

Lemma elem_of_values_delete (x l : Listener) (s : SetData) :
  x ∈ values (Listeners.delete l s) <-> x ≠ l /\ x ∈ values s.
Proof. rewrite values_delete, list_elem_of_filter. tauto. Qed.

(** X3. A component that calls [useGalleryStore] starts from the
    collection and is subscribed; subscribing the same listener again
    changes nothing.  After the cleanup of its effect it is not subscribed,
    the other listeners are, and no mutation sets its [photos] any more. *)
Theorem X3_mount_subscribes_unmount_unsubscribes (l : Listener) (w : World) :
  l ∈ values (listeners (mount l w)) /\
  photosOf l (mount l w) = globalPhotos w /\
  listeners (mount l (mount l w)) = listeners (mount l w) /\
  (l ∉ values (listeners (unmount l w))) /\
  (forall l', l' ≠ l ->
     (l' ∈ values (listeners (unmount l w)) <-> l' ∈ values (listeners w))) /\
  (forall r u, snapshots (addPhoto r u (unmount l w)).2 !! l = None) /\
  (forall i, snapshots (removePhoto i (unmount l w)) !! l = None) /\
  snapshots (clearPhotos (unmount l w)) !! l = None.
Proof.
  assert (Hout : l ∉ values (listeners (unmount l w))).
  { cbn. rewrite elem_of_values_delete. tauto. }
  split; [cbn; apply elem_of_values_add; now left|].
  split; [unfold photosOf; cbn; now rewrite lookup_insert_eq|].
  split.
  { cbn. unfold add at 1, has.
    rewrite bool_decide_eq_true_2; [reflexivity|].
    apply elem_of_values, elem_of_values_add. now left. }
  split; [exact Hout|]. split.
  { intros l' Hne. cbn. rewrite elem_of_values_delete. tauto. }
  destruct (mutations_skip_unsubscribed l (unmount l w) Hout)
    as (Hadd & Hrem & Hclear).
  assert (Hnone : snapshots (unmount l w) !! l = None) by (cbn; apply lookup_delete_eq).
  repeat split; intros; [rewrite Hadd | rewrite Hrem | rewrite Hclear]; exact Hnone.
Qed.
End StoreLaws.

(** X4. The storage cannot make a mutation fail or change what it does in
    memory: [savePhotosToStorage] completes normally on every host, also
    when [setItem] rejects, and the collection, the Set and the [photos] of
    the components after a mutation are the same on any two hosts. *)
Theorem X4_storage_failures_swallowed (h1 h2 : Platform) (w : World) :
  (forall photos d, (savePhotosToStorage (host := h1) photos d).1 = Ok tt) /\
  (forall r u,
     let w1 := (addPhoto (host := h1) r u w).2 in
     let w2 := (addPhoto (host := h2) r u w).2 in
     globalPhotos w1 = globalPhotos w2 /\ listeners w1 = listeners w2 /\
     snapshots w1 = snapshots w2) /\
  (forall i,
     let w1 := removePhoto (host := h1) i w in
     let w2 := removePhoto (host := h2) i w in
     globalPhotos w1 = globalPhotos w2 /\ listeners w1 = listeners w2 /\
     snapshots w1 = snapshots w2) /\
  (let w1 := clearPhotos (host := h1) w in
   let w2 := clearPhotos (host := h2) w in
   globalPhotos w1 = globalPhotos w2 /\ listeners w1 = listeners w2 /\
   snapshots w1 = snapshots w2).
Proof.
  split.
  { intros photos d. unfold savePhotosToStorage, try_catch.
    now destruct (setItem _ _ _ d) as [[[]|] d']. }
  repeat split; intros; unfold addPhoto, removePhoto, clearPhotos; cbn [snd];
    rewrite ?globalPhotos_notifyListeners, ?listeners_notifyListeners;
    try reflexivity;
    apply map_eq; intros l; now rewrite !snapshots_notifyListeners.
Qed.

Section Persistence.
Context `{host : Platform}.

Lemma savePhotosToStorage_getItem (photos : list Photo) (d : Device) :
  keeps_what_is_set ->
  let d' := (savePhotosToStorage photos d).2 in
  getItem AsyncStorage STORAGE_KEY d'
  = (Ok (Some (JSON_stringify (json_of_photos photos))), d').
Proof.
  intros Hlaw. unfold savePhotosToStorage, try_catch.
  destruct (Hlaw STORAGE_KEY (JSON_stringify (json_of_photos photos)) d)
    as (d' & Hset & Hget).
  now rewrite Hset.
Qed.

Lemma mutations_stored (w : World) :
  keeps_what_is_set ->
  let stored := fun w' : World => (getItem AsyncStorage STORAGE_KEY (device w')).1 in
  let encoded := fun w' : World =>
    Ok (Some (JSON_stringify (json_of_photos (globalPhotos w')))) in
  (forall r u, stored (addPhoto r u w).2 = encoded (addPhoto r u w).2) /\
  (forall i, stored (removePhoto i w) = encoded (removePhoto i w)) /\
  stored (clearPhotos w) = encoded (clearPhotos w).
Proof.
  intros Hlaw stored encoded. subst stored encoded.
  repeat split; intros; unfold addPhoto, removePhoto, clearPhotos; cbn [snd];
    rewrite device_notifyListeners, globalPhotos_notifyListeners; cbn;
    now rewrite savePhotosToStorage_getItem.
Qed.

(** X5. On a storage that gives back what was set, after [addPhoto],
    [removePhoto] and [clearPhotos] the text under the key is the encoding
    of the collection as it is in memory. *)
Theorem X5_storage_follows_memory (w : World) :
  keeps_what_is_set ->
  let stored := fun w' : World => (getItem AsyncStorage STORAGE_KEY (device w')).1 in
  let encoded := fun w' : World =>
    Ok (Some (JSON_stringify (json_of_photos (globalPhotos w')))) in
  (forall r u, stored (addPhoto r u w).2 = encoded (addPhoto r u w).2) /\
  (forall i, stored (removePhoto i w) = encoded (removePhoto i w)) /\
  stored (clearPhotos w) = encoded (clearPhotos w).
Proof. apply mutations_stored. Qed.

(** X6. On a storage that gives back what was set and with a codec that
    reads back the encoding of these photos (which is not the empty text),
    [loadPhotosFromStorage] after [savePhotosToStorage] gives the photos
    saved. *)
Theorem X6_save_then_load (photos : list Photo) (d : Device) :
  keeps_what_is_set ->
  JSON_stringify (json_of_photos photos) <> EmptyString ->
  JSON_parse (JSON_stringify (json_of_photos photos)) = Ok (json_of_photos photos) ->
  (loadPhotosFromStorage (savePhotosToStorage photos d).2).1
  = Ok (json_of_photos photos).
Proof.
  intros Hlaw Hne Hcodec.
  unfold loadPhotosFromStorage, try_catch, mbind, Eff_bind, lift.
  rewrite (savePhotosToStorage_getItem photos d Hlaw).
  rewrite bool_decide_eq_true_2 by exact Hne. now rewrite Hcodec.
Qed.
End Persistence.

Lemma installed_keeps_what_is_set : keeps_what_is_set (host := Host.installed).
Proof.
  intros key value d. eexists. split; [reflexivity|].
  cbn. now rewrite lookup_insert_eq.
Qed.

(** The theorem on the collection of two photos. *)
Lemma X5_storage_follows_memory_witness :
  (getItem (AsyncStorage (H := Host.installed)) STORAGE_KEY
     (device (clearPhotos (host := Host.installed)
                (GalleryScreen.world Host.reviewing_two_photos)))).1
  = Ok (Some "[]").
Proof.
  destruct (X5_storage_follows_memory (host := Host.installed)
              (GalleryScreen.world Host.reviewing_two_photos)
              installed_keeps_what_is_set) as (_ & _ & Hclear).
  rewrite Hclear. vm_compute. reflexivity.
Defined.

(** The theorem on the photos a and b. *)
Lemma X6_save_then_load_witness :
  (loadPhotosFromStorage (host := Host.installed)
     (savePhotosToStorage (host := Host.installed)
        [Host.photo_b; Host.photo_a] Host.blank).2).1
  = Ok (json_of_photos [Host.photo_b; Host.photo_a]).
Proof.
  apply (X6_save_then_load (host := Host.installed)).
  - exact installed_keeps_what_is_set.
  - vm_compute. discriminate.
  - vm_compute. reflexivity.
Defined.

Section StoreRoundTrips.
Context `{host : Platform}.



(** X8. [removePhoto] with the id of the photo that [addPhoto] has just
    made gives the collection back, when no photo had that id. *)
Theorem X8_add_then_remove (r : Reading) (u : string) (w : World) :
  id (newPhoto r u) ∉ id <$> globalPhotos w ->
  globalPhotos (removePhoto (id (newPhoto r u)) (addPhoto r u w).2) = globalPhotos w.
Proof.
  intros Hfresh. rewrite removePhoto_globalPhotos, addPhoto_globalPhotos.
  rewrite filter_cons_False by auto.
  apply filter_all. intros p Hp Heq. apply Hfresh. rewrite <- Heq.
  now apply list_elem_of_fmap_2.
Qed.

(** X9. Ids that are pairwise distinct stay so after [removePhoto] and
    [clearPhotos], and after [addPhoto] exactly when the new id is not the
    id of a photo of the collection: [addPhoto] does not look. *)
Theorem X9_distinct_ids_kept (w : World) :
  NoDup (id <$> globalPhotos w) ->
  (forall i, NoDup (id <$> globalPhotos (removePhoto i w))) /\
  NoDup (id <$> globalPhotos (clearPhotos w)) /\
  (forall r u, NoDup (id <$> globalPhotos (addPhoto r u w).2)
               <-> id (newPhoto r u) ∉ id <$> globalPhotos w).
Proof.
  intros Hnd. split; [|split].
  - intros i. rewrite removePhoto_globalPhotos.
    eapply sublist_NoDup; [exact Hnd|]. apply fmap_sublist, sublist_filter.
  - rewrite clearPhotos_globalPhotos. constructor.
  - intros r u. rewrite addPhoto_globalPhotos, fmap_cons, NoDup_cons. tauto.
Qed.
End StoreRoundTrips.


Lemma X8_add_then_remove_witness :
  globalPhotos
    (removePhoto (host := Host.installed) (id Host.photo_b)
       (addPhoto (host := Host.installed) Host.reading_b "file://b" Host.one_photo).2)
  = globalPhotos Host.one_photo.
Proof.
  apply (X8_add_then_remove (host := Host.installed)).
  intros Hin. vm_compute in Hin.
  apply list_elem_of_singleton in Hin. discriminate.
Defined.

Lemma X9_distinct_ids_kept_witness :
  NoDup (id <$> globalPhotos
                  (removePhoto (host := Host.installed) (id Host.photo_a)
                     (GalleryScreen.world Host.reviewing_two_photos))).
Proof.
  apply (X9_distinct_ids_kept (host := Host.installed)).
  apply NoDup_cons. split; [|apply NoDup_singleton].
  intros Hin. apply list_elem_of_singleton in Hin. discriminate.
Defined.

(** The theorems on the store of the review of two photos. *)
Lemma X1_removePhoto_removes_by_id_witness :
  globalPhotos (removePhoto (host := Host.installed) "photo-0-0"
                  (GalleryScreen.world Host.reviewing_two_photos))
  = globalPhotos (GalleryScreen.world Host.reviewing_two_photos).
Proof.
  apply (X1_removePhoto_removes_by_id (host := Host.installed)).
  intros Hin. vm_compute in Hin.
  apply elem_of_cons in Hin as [Hin|Hin]; [discriminate|].
  apply list_elem_of_singleton in Hin. discriminate.
Defined.

Lemma X2_mutations_reach_subscribers_witness :
  photosOf 0 (clearPhotos (host := Host.installed)
                (GalleryScreen.world Host.reviewing_two_photos)) = [].
Proof.
  apply (proj1 (X2_mutations_reach_subscribers (host := Host.installed) 0
                  (GalleryScreen.world Host.reviewing_two_photos))).
  vm_compute. now left.
Defined.

(** ** The review screen: cursor, grid and runs of gestures *)

Import Review.

Section ReviewLaws.
Context `{host : Platform}.
Variable self : Listener.
Variable ml : MediaLibrary.

(** X10. With the cursor on a photo in swipe mode, a swipe to the right
    leaves the cursor on a photo: the screen shows the card of the next
    photo, or, after the last photo, the grid with the cursor back at 0. *)
Theorem X10_swipe_right_shows_next (s : Session) :
  onPhoto self s -> viewMode (state s) = SwipeMode ->
  let photos := photosOf self (world s) in
  let s' := onSwipeRight self ml s in
  onPhoto self s' /\
  match photos !! S (currentIndex (state s)) with
  | Some next => render self s' = Card next
  | None => render self s' = Grid photos /\
            state s' = {| viewMode := GridMode; currentIndex := 0 |}
  end.
Proof.
  intros Hon Hmode photos s'. subst s'. unfold onPhoto in *.
  destruct (onSwipeRight_spec self ml s) as (Hw & Hs & _).
  unfold render. rewrite Hw, Hs. fold photos in Hon |- *.
  unfold moveToNext. rewrite Hmode.
  assert (Hlen : (length photos =? 0)%nat = false) by (apply Nat.eqb_neq; lia).
  rewrite Hlen.
  destruct (photos !! S (currentIndex (state s))) as [next|] eqn:Hnext.
  - pose proof (lookup_lt_Some _ _ _ Hnext) as Hlt.
    rewrite (proj2 (Z.ltb_lt _ _)) by lia. cbn.
    rewrite Nat.add_1_r. split; [lia|]. now rewrite Hnext.
  - apply lookup_ge_None in Hnext.
    rewrite (proj2 (Z.ltb_ge _ _)) by lia. cbn. split; [lia|]. now split.
Qed.

(** X11. Pressing in the grid a photo of the collection, whose ids are
    distinct, puts the screen in swipe mode with the cursor on that photo:
    the screen shows its card.  With an id that no photo has,
    [handlePhotoPress] changes nothing. *)
Theorem X11_press_opens_the_photo (p : Photo) (s : Session) :
  (p ∈ photosOf self (world s) -> NoDup (id <$> photosOf self (world s)) ->
     viewMode (state (onPhotoPress self p s)) = SwipeMode /\
     photosOf self (world s) !! currentIndex (state (onPhotoPress self p s)) = Some p /\
     render self (onPhotoPress self p s) = Card p) /\
  (id p ∉ id <$> photosOf self (world s) -> onPhotoPress self p s = s).
Proof.
  unfold onPhotoPress, handlePhotoPress, findIndex, render. cbn.
  set (photos := photosOf self (world s)). split.
  - intros Hin Hnd.
    destruct (list_find_elem_of (fun q => id q = id p) photos p Hin eq_refl)
      as [[i q] Hfind].
    rewrite Hfind. cbn. apply list_find_Some in Hfind as (Hi & Hid & _).
    assert (q = p) as ->.
    { apply list_elem_of_lookup in Hin as [j Hj].
      assert (i = j) as ->; [|congruence].
      apply (NoDup_lookup (id <$> photos) i j (id p) Hnd).
      - rewrite list_lookup_fmap, Hi. cbn. congruence.
      - now rewrite list_lookup_fmap, Hj. }
    split; [reflexivity|]. split; [exact Hi|].
    assert (Hlen : (length photos =? 0)%nat = false).
    { apply Nat.eqb_neq. apply lookup_lt_Some in Hi. lia. }
    now rewrite Hlen, Hi.
  - intros Hnotin.
    assert (Hnone : list_find (fun q => id q = id p) photos = None).
    { apply list_find_None, Forall_forall. intros q Hq Heq. apply Hnotin.
      rewrite <- Heq. now apply list_elem_of_fmap_2. }
    rewrite Hnone. cbn. now destruct s.
Qed.



End ReviewLaws.

(** The theorems on the review of two photos, b before a. *)
Lemma X10_swipe_right_shows_next_witness :
  render 0 (onSwipeRight 0 Host.granting Host.reviewing_two_photos)
  = Card Host.photo_a.
Proof.
  destruct (X10_swipe_right_shows_next 0 Host.granting
              Host.reviewing_two_photos) as [_ Hnext].
  - unfold onPhoto. vm_compute. lia.
  - reflexivity.
  - exact Hnext.
Defined.

Lemma X11_press_opens_the_photo_witness :
  render 0 (onPhotoPress 0 Host.photo_a (onToggle Host.reviewing_two_photos))
  = Card Host.photo_a.
Proof.
  apply (proj1 (X11_press_opens_the_photo 0 Host.photo_a
                  (onToggle Host.reviewing_two_photos))).
  - vm_compute. right. now left.
  - vm_compute. apply NoDup_cons. split; [|apply NoDup_singleton].
    intros Hin. apply list_elem_of_singleton in Hin. discriminate.
Defined.



(** ** The camera and the capture screen *)

(** What [takePicture] gives, case by case. *)
Lemma takePicture_cases (camera : Camera.Device) (st : Camera.State)
    (log : list Camera.Call) :
  Camera.takePicture camera st log
  = if Camera.mounted st && Camera.isReady st then
      (Ok match Camera.takePictureAsync camera with
          | Ok (Some u) => if bool_decide (u ≠ EmptyString) then Some u else None
          | _ => None
          end,
       log ++ [Camera.TakePicture (8 # 10) false])
    else (Ok None, log).
Proof.
  unfold Camera.takePicture, Camera.await, Camera.orNull, try_catch, mbind,
    Eff_bind, mret, Eff_ret.
  destruct (Camera.mounted st), (Camera.isReady st); cbn; try reflexivity.
  now destruct (Camera.takePictureAsync camera) as [[u|]|].
Qed.

(** X14. [takePicture] never throws.  Without the camera view or before
    it is ready, it gives null and does not call the camera.  Otherwise it
    calls [takePictureAsync] once (quality 0.8, no base64); it gives a uri
    only when the camera resolved to a picture with that uri, which is not
    empty, and null when the camera rejected, resolved to no picture or to
    an empty uri. *)
Theorem X14_takePicture_guards (camera : Camera.Device) (st : Camera.State)
    (log : list Camera.Call) :
  let out := Camera.takePicture camera st log in
  (exists r, out.1 = Ok r) /\
  (Camera.mounted st = false \/ Camera.isReady st = false -> out = (Ok None, log)) /\
  (Camera.mounted st = true -> Camera.isReady st = true ->
     out.2 = log ++ [Camera.TakePicture (8 # 10) false] /\
     out.1 = Ok match Camera.takePictureAsync camera with
                | Ok (Some u) => if bool_decide (u ≠ EmptyString) then Some u else None
                | _ => None
                end) /\
  (forall u, out.1 = Ok (Some u) ->
     u <> EmptyString /\ Camera.takePictureAsync camera = Ok (Some u) /\
     Camera.mounted st = true /\ Camera.isReady st = true).
Proof.
  intros out. subst out. rewrite takePicture_cases.
  destruct (Camera.mounted st), (Camera.isReady st); cbn.
  2-4: (split; [eauto|]; split; [reflexivity|]; split;
        [intros; discriminate | intros u [=]]).
  split; [eauto|]. split; [intros [?|?]; discriminate|]. split; [now split|].
  intros u Hu. destruct (Camera.takePictureAsync camera) as [[u'|]|];
    try discriminate.
  case_bool_decide as Hne; [|discriminate]. injection Hu as ->. auto.
Qed.

Lemma X14_takePicture_guards_witness :
  Camera.takePicture Samples.working Camera.initial [] = (Ok None, []).
Proof.
  apply (X14_takePicture_guards Samples.working Camera.initial []).
  now left.
Defined.

Import CameraScreen.

Section CaptureLaws.
Context `{host : Platform}.
Variable camera : Camera.Device.

Lemma takePicture_truthy (st : Camera.State) (log : list Camera.Call) (u : string) :
  (Camera.takePicture camera st log).1 = Ok (Some u) -> u <> EmptyString.
Proof.
  rewrite takePicture_cases.
  destruct (Camera.mounted st && Camera.isReady st); [|discriminate]. cbn.
  destruct (Camera.takePictureAsync camera) as [[u'|]|]; try discriminate.
  case_bool_decide as Hne; [|discriminate]. now intros [= <-].
Qed.

(** X15. [handleCapture] changes neither the store nor the route.  When
    the camera view is ready and the camera resolves to a picture with a
    uri that is not empty, the picture becomes [capturedPhoto] and, with
    the permission granted, the screen shows it for review; in every other
    case [capturedPhoto] is what it was. *)
Theorem X15_capture_keeps_store (s : Screen) :
  let s' := handleCapture camera s in
  store s' = store s /\ router s' = router s /\
  (forall u, Camera.mounted (hook s) = true -> Camera.isReady (hook s) = true ->
     Camera.takePictureAsync camera = Ok (Some u) -> u <> EmptyString ->
     capturedPhoto s' = Some u /\
     render (Some {| Camera.granted := true |}) s' = Review u) /\
  (Camera.mounted (hook s) = false \/ Camera.isReady (hook s) = false \/
   Camera.takePictureAsync camera = Throw \/
   Camera.takePictureAsync camera = Ok None \/
   Camera.takePictureAsync camera = Ok (Some EmptyString) ->
     capturedPhoto s' = capturedPhoto s /\ shots s' = (Camera.takePicture camera (hook s) (shots s)).2).
Proof.
  intros s'. subst s'. unfold handleCapture, render. rewrite takePicture_cases.
  destruct (Camera.mounted (hook s)), (Camera.isReady (hook s));
    cbn [negb orb andb fst snd].
  2-4: (split; [reflexivity|]; split; [reflexivity|];
        split; [intros; discriminate | intros _; split; reflexivity]).
  destruct (Camera.takePictureAsync camera) as [[u|]|] eqn:Hcam; cbn.
  2-3: (split; [reflexivity|]; split; [reflexivity|];
        split; [intros; discriminate | intros _; split; reflexivity]).
  case_bool_decide as Hu; cbn.
  - split; [reflexivity|]; split; [reflexivity|]. split.
    + intros u' _ _ [= <-] _. rewrite !bool_decide_eq_true_2 by exact Hu.
      now split.
    + intros [?|[?|[?|[?|Hempty]]]]; try discriminate.
      injection Hempty as ->. now destruct Hu.
  - split; [reflexivity|]; split; [reflexivity|]. split.
    + intros u' _ _ [= <-] Hne. now destruct Hu.
    + intros _. split; reflexivity.
Qed.

(** X16. With a picture captured, [handleSave] puts one photo with that
    uri at the head of the collection, forgets the picture and replaces the
    route with the gallery; the gallery screen opened on that store shows
    the card of the new photo.  With nothing captured it does nothing. *)
Theorem X16_save_adds_and_shows (r : Reading) (s : Screen) :
  (forall u, capturedPhoto s = Some u -> u <> EmptyString ->
     let s' := handleSave r s in
     globalPhotos (store s') = newPhoto r u :: globalPhotos (store s) /\
     capturedPhoto s' = None /\
     router s' = router s ++ [Replace "/gallery"] /\
     forall self, GalleryScreen.render self (GalleryScreen.open self (store s'))
                  = GalleryScreen.Card (newPhoto r u)) /\
  (truthy (capturedPhoto s) = false -> handleSave r s = s).
Proof.
  unfold handleSave, truthy. split.
  - intros u Hu Hne. rewrite Hu, bool_decide_eq_true_2 by exact Hne.
    cbn [store capturedPhoto router].
    rewrite addPhoto_globalPhotos. split; [reflexivity|]. split; [reflexivity|].
    split; [reflexivity|].
    intros self. unfold GalleryScreen.render, GalleryScreen.open, photosOf, mount.
    cbn [GalleryScreen.world GalleryScreen.state snapshots GalleryScreen.viewMode
         GalleryScreen.currentIndex GalleryScreen.initialState].
    rewrite lookup_insert_eq. cbn [default from_option id].
    unfold Datatypes.id. rewrite addPhoto_globalPhotos. reflexivity.
  - destruct (capturedPhoto s) as [u|]; [|reflexivity].
    now intros ->.
Qed.

(** X17. [handleDiscard] never changes the store.  With a picture
    captured it forgets the picture and stays on the screen, which goes
    back to the live camera; with none it asks the router to go back. *)
Theorem X17_discard_keeps_store (s : Screen) :
  let s' := handleDiscard s in
  store s' = store s /\
  (truthy (capturedPhoto s) = true ->
     capturedPhoto s' = None /\ router s' = router s /\
     render (Some {| Camera.granted := true |}) s' = Live) /\
  (truthy (capturedPhoto s) = false ->
     capturedPhoto s' = capturedPhoto s /\ router s' = router s ++ [Back]).
Proof.
  intros s'. subst s'. unfold handleDiscard.
  destruct (truthy (capturedPhoto s)); cbn; repeat split; discriminate.
Qed.

(** X18. On the capture screen without review, [handleCapture] adds a
    photo and goes to the gallery exactly when [takePicture] gives a uri:
    then the new photo, with that uri, is at the head of the collection;
    otherwise the store and the route are what they were. *)
Theorem X18_direct_capture (r : Reading) (s : Screen) :
  let s' := handleCaptureDirect camera r s in
  match (Camera.takePicture camera (hook s) (shots s)).1 with
  | Ok (Some u) =>
      globalPhotos (store s') = newPhoto r u :: globalPhotos (store s) /\
      router s' = router s ++ [Replace "/gallery"]
  | _ => store s' = store s /\ router s' = router s
  end.
Proof.
  intros s'. subst s'. unfold handleCaptureDirect.
  pose proof (takePicture_truthy (hook s) (shots s)) as Htruthy.
  destruct (Camera.takePicture camera (hook s) (shots s)) as [[[u|]|] log];
    cbn [fst snd] in *.
  - rewrite bool_decide_eq_true_2 by now apply Htruthy.
    cbn [store router]. now rewrite addPhoto_globalPhotos.
  - now split.
  - now split.
Qed.
End CaptureLaws.

(** The theorems on the capture screen opened on the empty store. *)
Lemma X15_capture_keeps_store_witness :
  capturedPhoto (handleCapture Samples.working (open (start Host.blank)))
  = Some "file://shot".
Proof.
  destruct (X15_capture_keeps_store Samples.working (open (start Host.blank)))
    as (_ & _ & Hshot & _).
  now apply (Hshot "file://shot").
Defined.

Lemma X16_save_adds_and_shows_witness :
  GalleryScreen.render 0
    (GalleryScreen.open 0
       (store (handleSave (host := Host.installed) Host.reading_a
                 (handleCapture Samples.working (open (start Host.blank))))))
  = GalleryScreen.Card (newPhoto Host.reading_a "file://shot").
Proof.
  apply (proj1 (X16_save_adds_and_shows (host := Host.installed) Host.reading_a
                  (handleCapture Samples.working (open (start Host.blank))))
           "file://shot").
  - reflexivity.
  - discriminate.
Defined.

Lemma X17_discard_keeps_store_witness :
  router (handleDiscard (open (start Host.blank))) = [Back].
Proof.
  destruct (X17_discard_keeps_store (open (start Host.blank))) as (_ & _ & Hback).
  now apply Hback.
Defined.

(** X19. The permission prompt wired to the hook of the camera,
    [handleRequest] over [handleRequestPermission]: one request is made to
    the camera.  When the camera resolves, whatever the answer, the button
    is enabled again with its first title.  When the camera rejects,
    nothing catches it: [handleRequest] rejects and [isRequesting] stays
    true, so the button stays disabled under the title of a request in
    progress. *)
Theorem X19_prompt_stuck_on_rejection (camera : Camera.Device)
    (log : list Camera.Call) (isRequesting : bool) :
  let out := PermissionBlocker.handleRequest
               (Camera.handleRequestPermission camera) (log, isRequesting) in
  out.2.1 = log ++ [Camera.RequestPermission] /\
  (forall p, Camera.requestPermissionAsync camera = Ok p ->
     out.1 = Ok tt /\ PermissionBlocker.disabled out.2.2 = false /\
     PermissionBlocker.title out.2.2 = "Permitir Acceso") /\
  (Camera.requestPermissionAsync camera = Throw ->
     out.1 = Throw /\ PermissionBlocker.disabled out.2.2 = true /\
     PermissionBlocker.title out.2.2 = "Solicitando...").
Proof.
  intros out. subst out.
  unfold PermissionBlocker.handleRequest, Camera.handleRequestPermission,
    Camera.await, mbind, Eff_bind, mret, Eff_ret.
  cbn [fst snd].
  destruct (Camera.requestPermissionAsync camera) as [p|]; cbn.
  - split; [reflexivity|]. split; [|discriminate]. now intros p' _.
  - split; [reflexivity|]. split; [discriminate|]. now intros _.
Qed.

Lemma X19_prompt_stuck_on_rejection_witness :
  PermissionBlocker.disabled
    (PermissionBlocker.handleRequest
       (Camera.handleRequestPermission Samples.failing) ([], false)).2.2 = true.
Proof.
  destruct (X19_prompt_stuck_on_rejection Samples.failing [] false)
    as (_ & _ & Hstuck).
  now apply Hstuck.
Defined.

(** ** The calls of the export gate *)

Import SaveToGallery.

(** Membership in a log that is written out. *)
Ltac in_log H :=
  repeat (apply elem_of_cons in H as [H|H]; [try discriminate H|]);
  try (now apply elem_of_nil in H).

(** X20. The calls [saveToGallery] makes to the library.  The first is
    always the write-only query of the permission, and every call is that
    query, the write-only request or the copy of this photo.  The user is
    asked exactly when the query resolved to a permission that is not
    granted and may be asked again: a permission already granted is never
    requested again.  The copy is attempted exactly when the query resolved
    and the permission was granted, by the query or by the request. *)
Theorem X20_gate_calls (ml : MediaLibrary) (uri : string) :
  let new := (saveToGallery ml uri []).2 in
  (exists rest, new = GetPermissions true :: rest) /\
  (forall c, c ∈ new ->
     c = GetPermissions true \/ c = RequestPermissions true \/ c = SaveToLibrary uri) /\
  (RequestPermissions true ∈ new <->
     exists p, getPermissionsAsync ml true = Ok p /\
               isGranted (status p) = false /\ canAskAgain p = true) /\
  (SaveToLibrary uri ∈ new <->
     exists p, getPermissionsAsync ml true = Ok p /\
               (isGranted (status p) = true \/
                canAskAgain p = true /\
                exists r, requestPermissionsAsync ml true = Ok r /\
                          isGranted (status r) = true)).
Proof.
  intros new. subst new. run_gate ml uri.
  all: split; [eauto|]; split; [intros c Hc; in_log Hc; subst c; auto|].
  all: split; split.
  all: try solve [intros Hin; in_log Hin].
  all: try solve [intros _; eexists; split; [reflexivity|]; cbn [status canAskAgain];
                  first [now split | now left | right; split; [reflexivity|]; eauto]].
  all: try solve [intros _; set_solver].
  all: try solve [intros (p & [= <-] & Hp); cbn [status canAskAgain] in Hp;
                  first [destruct Hp; congruence
                        | destruct Hp as [Hp|(Hc & r & Hr & Hg)];
                          [congruence
                          | first [discriminate | congruence
                                  | injection Hr as <-; cbn in Hg; congruence]]]].
  all: try solve [intros (p & Hp & _); discriminate].
Qed.

(** X21. [requestPermission] never throws and makes one call, the
    write-only request.  It gives true exactly when the library resolved
    with the status granted; a rejection gives false. *)
Theorem X21_requestPermission_total (ml : MediaLibrary) (log : list Call) :
  let out := requestPermission ml log in
  out.2 = log ++ [RequestPermissions true] /\
  (exists b, out.1 = Ok b) /\
  (out.1 = Ok true <->
     exists r, requestPermissionsAsync ml true = Ok r /\ status r = Granted).
Proof.
  intros out. subst out.
  unfold requestPermission, try_catch, await, mbind, Eff_bind, mret, Eff_ret.
  cbn [fst snd].
  destruct (requestPermissionsAsync ml true) as [[[] ca]|]; cbn.
  all: split; [reflexivity|]; split; [eauto|]; split.
  all: try discriminate.
  all: try (intros (r & [= <-] & Hr); discriminate).
  all: try (intros (r & Hr & _); discriminate).
  all: eauto.
Qed.

(** ** The card after a release *)

(** X22. Whatever the release and wherever the card was dragged to, after
    the effects of [onPanResponderRelease] both animated values are 0: the
    card is at the origin again.  On a commit, the terminal callback is
    called when the card is 1.5 screen widths to the side it was sent to,
    at the height it was released at. *)
Theorem X22_release_ends_at_origin (W : Q) (g : Swipe.Gesture) (p : Card.Position) :
  Card.rest p (Swipe.onPanResponderRelease W g) = Card.origin /\
  (Swipe.fired (Swipe.onPanResponderRelease W g) = [Swipe.OnSwipeRight] ->
     Card.invokedAt p (Swipe.onPanResponderRelease W g)
     = [(Swipe.OnSwipeRight, {| Card.x := W * (3 # 2); Card.y := Card.y p |})]) /\
  (Swipe.fired (Swipe.onPanResponderRelease W g) = [Swipe.OnSwipeLeft] ->
     Card.invokedAt p (Swipe.onPanResponderRelease W g)
     = [(Swipe.OnSwipeLeft, {| Card.x := - W * (3 # 2); Card.y := Card.y p |})]).
Proof.
  destruct (release_cases W g) as [-> | [-> | ->]].
  all: split; [reflexivity|]; split; intros Hfired; first [discriminate | reflexivity].
Qed.

Lemma X22_release_ends_at_origin_witness :
  Card.invokedAt {| Card.x := 150; Card.y := 20 |}
    (Swipe.onPanResponderRelease 400 (Swipe.release 150 0))
  = [(Swipe.OnSwipeRight, {| Card.x := 400 * (3 # 2); Card.y := 20 |})].
Proof.
  apply (proj1 (proj2 (X22_release_ends_at_origin 400%Q (Swipe.release 150 0)
                         {| Card.x := 150; Card.y := 20 |}))).
  reflexivity.
Defined.

(** ** The hook of useInitializeStore.ts *)

Import Startup.

(** X23. After [initialize] of useInitializeStore.ts, what
    [loadPhotosFromStorage] gave is in the [globalPhotos] of the hook
    whether the listeners return or one of them throws, since the
    assignment comes first and the throw is caught; and the collection,
    the listeners and the components of galleryStore.ts are what they
    were. *)
Theorem X23_initialize_keeps_store `{host : Platform} (body : Listener -> list Action)
    (fuel : nat) (h : HookState) (w : World)
    (completion : result unit) (r : Registry) :
  Listeners.notifyListeners body fuel (hookListeners h) = Some (completion, r) ->
  exists v w',
    (loadPhotosFromStorage (device w)).1 = Ok v /\
    initialize body fuel h w = Some ({| hookPhotos := v; hookListeners := r |}, w') /\
    globalPhotos w' = globalPhotos w /\
    GalleryStore.listeners w' = GalleryStore.listeners w /\
    snapshots w' = snapshots w.
Proof.
  intros Hnotify. unfold initialize.
  destruct (loadPhotosFromStorage_total (device w)) as [v Hv].
  destruct (loadPhotosFromStorage (device w)) as [c d']. cbn [fst] in Hv. subst c.
  rewrite Hnotify. cbn. eexists _, _. split; [reflexivity|].
  split; [reflexivity|]. now split.
Qed.

Lemma X23_initialize_keeps_store_witness :
  exists h w',
    initialize (host := Host.installed) Host.throwing 2 Samples.two_added
      Host.one_photo = Some (h, w') /\
    hookPhotos h = json_of_photos [Host.photo_a] /\
    called (hookListeners h) = [1] /\
    globalPhotos w' = [Host.photo_a].
Proof.
  destruct (X23_initialize_keeps_store (host := Host.installed) Host.throwing 2
              Samples.two_added Host.one_photo Throw
              {| Listeners.listeners := [Some 1; Some 2]; called := [1] |})
    as (v & w' & Hv & Hinit & Hphotos & _).
  - reflexivity.
  - exists {| hookPhotos := v;
              hookListeners := {| Listeners.listeners := [Some 1; Some 2];
                                  called := [1] |} |}, w'.
    split; [exact Hinit|].
    assert (Hload : (loadPhotosFromStorage (host := Host.installed)
                       (device Host.one_photo)).1
                    = Ok (json_of_photos [Host.photo_a])) by (vm_compute; reflexivity).
    rewrite Hload in Hv. injection Hv as <-.
    split; [reflexivity|]. split; [reflexivity|]. exact Hphotos.
Defined.

(** ** The theorems above on concrete inputs *)

(** With listeners 1 and 2 subscribed, the cleanup of 1 leaves 2. *)
Lemma X3_mount_subscribes_unmount_unsubscribes_witness :
  2 ∈ values (GalleryStore.listeners
                (unmount 1 (mount 2 (mount 1 (start Host.blank))))).
Proof.
  destruct (X3_mount_subscribes_unmount_unsubscribes (host := Host.installed) 1
              (mount 2 (mount 1 (start Host.blank))))
    as (_ & _ & _ & _ & Hothers & _).
  apply (Hothers 2); [discriminate|].
  vm_compute. apply elem_of_cons. right. apply elem_of_cons. now left.
Defined.

(** A library that grants: the copy is attempted, and asking gives true. *)
Lemma X20_gate_calls_witness :
  SaveToLibrary "file://a" ∈ (saveToGallery Host.granting "file://a" []).2.
Proof.
  destruct (X20_gate_calls Host.granting "file://a") as (_ & _ & _ & Hcopy).
  apply Hcopy. exists Host.granted. split; [reflexivity|]. now left.
Defined.

Lemma X21_requestPermission_total_witness :
  (requestPermission Host.granting []).1 = Ok true.
Proof.
  destruct (X21_requestPermission_total Host.granting []) as (_ & _ & Htrue).
  apply Htrue. exists Host.granted. now split.
Defined.
